(** * blinkt-status: the Blinkt! driver for the Pi 5 (blinkt_pi5.py)

    A shallow embedding of the pixel buffer, the APA102 bit-banging
    encoder and the lazy GPIO set-up of [blinkt_pi5.py], with the
    properties its specification states about them.

    Python values are modelled as follows.
    - [int] is [Z]; [&], [|] and [<<] are [Z.land], [Z.lor], [Z.shiftl].
    - [float] is an IEEE 754 binary64 number: [spec_float] with precision
      53 and exponent bound 1024, multiplied and divided by the Standard
      Library's [SFmul] and [SFdiv] (round to nearest, ties to even).
    - an exception is the [Raise] case of [result]; the module's globals
      are threaded through a state-and-exception monad, so that whatever
      was mutated before a [raise] stays mutated. *)

From Stdlib Require Import ZArith Lia Bool List String.
From Stdlib Require Import Floats.SpecFloat.
From stdpp Require Import base list.

Local Open Scope Z_scope.

(** ** Exceptions and the state-and-exception monad *)

Inductive exn : Type :=
| IndexError
| ValueError
| OverflowError
| LgpioError.

Inductive result (A : Type) : Type :=
| Ok (a : A)
| Raise (e : exn).

Arguments Ok {A} a.
Arguments Raise {A} e.

Definition M (S A : Type) : Type := S -> result A * S.

Definition ret {S A : Type} (a : A) : M S A := fun s => (Ok a, s).

Definition raise {S A : Type} (e : exn) : M S A := fun s => (Raise e, s).

Definition bind {S A B : Type} (m : M S A) (k : A -> M S B) : M S B :=
  fun s =>
    match m s with
    | (Ok a, s') => k a s'
    | (Raise e, s') => (Raise e, s')
    end.

Definition lift {S A : Type} (r : result A) : M S A := fun s => (r, s).

Definition get {S : Type} : M S S := fun s => (Ok s, s).

Declare Scope py_scope.
Delimit Scope py_scope with py.
Notation "x <- m ;; k" := (bind m (fun x => k))
  (at level 100, m at next level, right associativity) : py_scope.
Notation "m ;;; k" := (bind m (fun _ => k))
  (at level 100, right associativity) : py_scope.
Local Open Scope py_scope.

(** [for x in range(n): body x] *)
Fixpoint for_from {S : Type} (start : nat) (n : nat) (body : nat -> M S unit)
  : M S unit :=
  match n with
  | O => ret tt
  | Datatypes.S n' => body start ;;; for_from (Datatypes.S start) n' body
  end.

Definition for_range {S : Type} (n : nat) (body : nat -> M S unit) : M S unit :=
  for_from 0%nat n body.

(** [for a in l: body a] *)
Fixpoint for_each {S A : Type} (l : list A) (body : A -> M S unit) : M S unit :=
  match l with
  | [] => ret tt
  | a :: l' => body a ;;; for_each l' body
  end.

(** ** Python numbers *)

Definition float : Type := spec_float.

Definition prec : Z := 53.
Definition emax : Z := 1024.

Definition fmul : float -> float -> float := SFmul prec emax.
Definition fdiv : float -> float -> float := SFdiv prec emax.
Definition flt : float -> float -> bool := SFltb.
Definition fle : float -> float -> bool := SFleb.
Definition is_float (f : float) : bool := valid_binary prec emax f.

(** The literal [31.0], and the floats [0.0] and [1.0] the integer literals
    [0] and [1] are compared as. *)
Definition f31 : float := S754_finite false 8725724278030336 (-48).
Definition f0 : float := S754_zero false.
Definition f1 : float := S754_finite false 4503599627370496 (-52).

Inductive pynum : Type :=
| PyInt (z : Z)
| PyFloat (f : float).

(** [float(z)] for an int [z], as the arithmetic operators convert an int
    operand: correctly rounded, [OverflowError] when out of range. *)
Definition py_float_of_int (z : Z) : result float :=
  match binary_normalize prec emax z 0 false with
  | S754_infinity _ => Raise OverflowError
  | f => Ok f
  end.

Definition py_to_float (x : pynum) : result float :=
  match x with
  | PyInt z => py_float_of_int z
  | PyFloat f => Ok f
  end.

(** [int(x)]: the identity on an int, truncation toward zero on a float. *)
Definition py_int (x : pynum) : result Z :=
  match x with
  | PyInt z => Ok z
  | PyFloat (S754_zero _) => Ok 0
  | PyFloat (S754_finite s m e) => Ok (cond_Zopp s (Z.shiftl (Zpos m) e))
  | PyFloat (S754_infinity _) => Raise OverflowError
  | PyFloat S754_nan => Raise ValueError
  end.

(** [x < k] and [x > k] for an int literal [k] (here 0 and 1, which the
    comparison with a float takes at their exact value). *)
Definition py_lt_lit (x : pynum) (k : Z) (fk : float) : bool :=
  match x with
  | PyInt z => z <? k
  | PyFloat f => flt f fk
  end.

Definition py_gt_lit (x : pynum) (k : Z) (fk : float) : bool :=
  match x with
  | PyInt z => k <? z
  | PyFloat f => flt fk f
  end.

(** [m / 2^k] rounded to the nearest integer, ties to even. *)
Definition div_pow2_half_even (n : Z) (k : Z) : Z :=
  let d := Z.shiftl 1 k in
  let q := n / d in
  let r := n mod d in
  match Z.compare (2 * r) d with
  | Lt => q
  | Gt => q + 1
  | Eq => if Z.even q then q else q + 1
  end.

(** The magnitude of [f * 10^3] rounded to the nearest integer, ties to
    even, for a finite [f] of mantissa [m] and exponent [e]. *)
Definition scaled_half_even (scale : Z) (m : positive) (e : Z) : Z :=
  if 0 <=? e then Z.shiftl (Zpos m * scale) e
  else div_pow2_half_even (Zpos m * scale) (- e).

(** [round(f, 3)] on a float: the decimal with three places nearest to the
    exact value of [f] (ties to even), converted back to the nearest
    float; infinities and NaN round to themselves. *)
Definition py_round3 (f : float) : float :=
  match f with
  | S754_finite s m e =>
      match scaled_half_even 1000 m e with
      | Zpos k => fdiv (S754_finite s k 0) (S754_finite false 1000 0)
      | _ => S754_zero s
      end
  | _ => f
  end.

(** [round(f)] with one argument: the nearest int, ties to even. *)
Definition py_round (f : float) : result Z :=
  match f with
  | S754_zero _ => Ok 0
  | S754_finite s m e => Ok (cond_Zopp s (scaled_half_even 1 m e))
  | S754_infinity _ => Raise OverflowError
  | S754_nan => Raise ValueError
  end.

(** ** The pixel buffer *)

Definition NUM_PIXELS : nat := 8.
Definition BRIGHTNESS : Z := 7.

(** One per-LED list [[r, g, b, brightness]]: the module only ever builds
    such lists with four int entries and only replaces entries in place. *)
Record pixel : Type := Pixel {
  red : Z;
  green : Z;
  blue : Z;
  brightness : Z
}.

(** [pixels] is a list of references to per-LED lists: [heap] holds the
    list objects, [slots] the reference held at each position. *)
Abbreviation loc := nat (only parsing).

Record buffer : Type := Buffer {
  slots : list loc;
  heap : list pixel
}.

(** [pixels = [[0, 0, 0, BRIGHTNESS]] * NUM_PIXELS]: one list object,
    referenced from every position. *)
Definition initial_pixels : buffer :=
  {| slots := replicate NUM_PIXELS 0%nat;
     heap := [Pixel 0 0 0 BRIGHTNESS] |}.

(** Indexing a list of length [len] with an int: a negative index counts
    from the end. *)
Definition py_index (len : nat) (x : Z) : result nat :=
  if (0 <=? x) && (x <? Z.of_nat len) then Ok (Z.to_nat x)
  else if (- Z.of_nat len <=? x) && (x <? 0) then Ok (Z.to_nat (Z.of_nat len + x))
  else Raise IndexError.

(** The reference [pixels[x]]. *)
Definition slot_ref (x : Z) : M buffer loc :=
  fun s =>
    match py_index (length (slots s)) x with
    | Ok i =>
        match slots s !! i with
        | Some l => (Ok l, s)
        | None => (Raise IndexError, s)
        end
    | Raise e => (Raise e, s)
    end.

(** The list object behind a reference. *)
Definition deref (l : loc) : M buffer pixel :=
  fun s =>
    match heap s !! l with
    | Some p => (Ok p, s)
    | None => (Raise IndexError, s)
    end.

(** In-place update of the list object behind a reference. *)
Definition update (l : loc) (f : pixel -> pixel) : M buffer unit :=
  fun s =>
    match heap s !! l with
    | Some p => (Ok tt, {| slots := slots s; heap := <[l := f p]> (heap s) |})
    | None => (Raise IndexError, s)
    end.

(** [pixels[x] = p] for a newly built list [p]: the position is rebound to
    a fresh object.  (A list built for a store that then raises is
    unreachable, and is not put in the heap.) *)
Definition rebind (x : Z) (p : pixel) : M buffer unit :=
  fun s =>
    match py_index (length (slots s)) x with
    | Ok i =>
        (Ok tt, {| slots := <[i := length (heap s)]> (slots s);
                   heap := heap s ++ [p] |})
    | Raise e => (Raise e, s)
    end.

(** [int(31.0 * brightness) & 0b11111] *)
Definition quantize (b : pynum) : result Z :=
  match py_to_float b with
  | Ok f =>
      match py_int (PyFloat (fmul f31 f)) with
      | Ok z => Ok (Z.land z 31)
      | Raise e => Raise e
      end
  | Raise e => Raise e
  end.

Definition set_brightness (b : pynum) : M buffer unit :=
  if py_lt_lit b 0 f0 || py_gt_lit b 1 f1 then raise ValueError
  else
    for_range NUM_PIXELS (fun x =>
      q <- lift (quantize b) ;;
      l <- slot_ref (Z.of_nat x) ;;
      update l (fun p => Pixel (red p) (green p) (blue p) q)).

Definition clear : M buffer unit :=
  for_range NUM_PIXELS (fun x =>
    l <- slot_ref (Z.of_nat x) ;;
    update l (fun p => Pixel 0 0 0 (brightness p))).

Definition get_pixel (x : Z) : M buffer (Z * Z * Z * float) :=
  l <- slot_ref x ;;
  p <- deref l ;;
  f <- lift (py_float_of_int (brightness p)) ;;
  ret (red p, green p, blue p, py_round3 (fdiv f f31)).

Definition set_pixel (x : Z) (r g b : pynum) (br : option pynum)
  : M buffer unit :=
  q <- match br with
       | None => l <- slot_ref x ;; p <- deref l ;; ret (brightness p)
       | Some v => lift (quantize v)
       end ;;
  zr <- lift (py_int r) ;;
  zg <- lift (py_int g) ;;
  zb <- lift (py_int b) ;;
  rebind x (Pixel (Z.land zr 255) (Z.land zg 255) (Z.land zb 255) q).

Definition set_all (r g b : pynum) (br : option pynum) : M buffer unit :=
  for_range NUM_PIXELS (fun x => set_pixel (Z.of_nat x) r g b br).

(** The pixel observed at position [i]: the list object the position refers to. *)
Definition pixel_at (s : buffer) (i : nat) : option pixel :=
  match slots s !! i with
  | Some l => heap s !! l
  | None => None
  end.

(** The pixels in chain order, as [for pixel in pixels] meets them. *)
Fixpoint deref_all (h : list pixel) (ls : list loc) : list pixel :=
  match ls with
  | [] => []
  | l :: ls' =>
      match h !! l with
      | Some p => p :: deref_all h ls'
      | None => deref_all h ls'
      end
  end.

Definition pixel_list (s : buffer) : list pixel :=
  deref_all (heap s) (slots s).

(** Every position holds a reference to an allocated list object, and
    there are [NUM_PIXELS] positions. *)
Definition wfb (s : buffer) : bool :=
  Nat.eqb (length (slots s)) NUM_PIXELS
  && forallb (fun l => Nat.ltb l (length (heap s))) (slots s).

Definition wf (s : buffer) : Prop := wfb s = true.

(** Channels are stored masked to 8 bits, brightness to 5 bits. *)
Definition pixel_in_range (p : pixel) : bool :=
  (0 <=? red p) && (red p <? 256) && (0 <=? green p) && (green p <? 256)
  && (0 <=? blue p) && (blue p <? 256)
  && (0 <=? brightness p) && (brightness p <? 32).

(** Membership in the interval [0.0, 1.0], and the test [set_brightness]
    makes for being outside it. *)
Definition in_unit_interval (b : pynum) : bool :=
  match b with
  | PyInt z => (0 <=? z) && (z <=? 1)
  | PyFloat f => is_float f && fle f0 f && fle f f1
  end.

Definition outside_unit_interval (b : pynum) : bool :=
  py_lt_lit b 0 f0 || py_gt_lit b 1 f1.

(** The quantisation as the specification words it:
    [round(31 * brightness)] masked to 5 bits. *)
Definition quantize_spec (b : pynum) : result Z :=
  match py_to_float b with
  | Ok f =>
      match py_round (fmul f31 f) with
      | Ok z => Ok (Z.land z 31)
      | Raise e => Raise e
      end
  | Raise e => Raise e
  end.

(** [float(q) / 31.0] rounded to three places, as [get_pixel] reports a
    stored brightness [q]. *)
Definition reported (q : Z) : result float :=
  match py_float_of_int q with
  | Ok f => Ok (py_round3 (fdiv f f31))
  | Raise e => Raise e
  end.

Definition float_eqb (a b : float) : bool :=
  match a, b with
  | S754_zero s, S754_zero t => Bool.eqb s t
  | S754_infinity s, S754_infinity t => Bool.eqb s t
  | S754_nan, S754_nan => true
  | S754_finite s m e, S754_finite t n k =>
      Bool.eqb s t && Pos.eqb m n && Z.eqb e k
  | _, _ => false
  end.

Definition is_ok {A : Type} (r : result A) : bool :=
  match r with
  | Ok _ => true
  | Raise _ => false
  end.

(** The colour arguments go through [int] and the brightness argument,
    when given, through the quantisation without raising. *)
Definition converts (r g b : pynum) (br : option pynum) : bool :=
  is_ok (py_int r) && is_ok (py_int g) && is_ok (py_int b)
  && match br with
     | None => true
     | Some v => is_ok (quantize v)
     end.

(** The floats [0.25], [0.226] and [0.258]. *)
Definition f_0_25 : float := S754_finite false 4503599627370496 (-54).
Definition f_0_226 : float := S754_finite false 8142508126285857 (-55).
Definition f_0_258 : float := S754_finite false 4647714815446352 (-54).

(** ** The driver: GPIO calls, lazy set-up, transmission *)

Definition DAT : Z := 23.
Definition CLK : Z := 24.

(** The calls the driver makes into [lgpio], [glob], [time] and [atexit].
    [_handle] is [None] until the chip is opened, hence the [option]. *)
Inductive call : Type :=
| ScanChipLabels
| GpiochipOpen (chip : Z)
| GpioClaimOutput (h : option Z) (gpio : Z)
| GpioFree (h : option Z) (gpio : Z)
| GpioWrite (h : option Z) (gpio : Z) (level : Z)
| GpiochipClose (h : option Z)
| TimeSleep (ns : Z)
| AtexitRegister.

(** [time.sleep(0.0000005)]: the half-cycle delay, in nanoseconds. *)
Definition HALF_CYCLE_NS : Z := 500.

(** The module's globals, and the calls made so far (oldest first). *)
Record driver : Type := Driver {
  pixels : buffer;
  _gpio_setup : bool;
  _clear_on_exit : bool;
  _handle : option Z;
  atexit_hooks : nat;
  trace : list call
}.

Definition initial_driver : driver :=
  {| pixels := initial_pixels;
     _gpio_setup := false;
     _clear_on_exit := true;
     _handle := None;
     atexit_hooks := 0%nat;
     trace := [] |}.

(** Run a pixel-buffer operation on the [pixels] global. *)
Definition on_pixels {A : Type} (m : M buffer A) : M driver A :=
  fun s =>
    let '(r, b) := m (pixels s) in
    (r, {| pixels := b;
           _gpio_setup := _gpio_setup s;
           _clear_on_exit := _clear_on_exit s;
           _handle := _handle s;
           atexit_hooks := atexit_hooks s;
           trace := trace s |}).

Definition log (c : call) (s : driver) : driver :=
  {| pixels := pixels s;
     _gpio_setup := _gpio_setup s;
     _clear_on_exit := _clear_on_exit s;
     _handle := _handle s;
     atexit_hooks := atexit_hooks s;
     trace := trace s ++ [c] |}.

(** The driver after further calls. *)
Definition logs (tr : list call) (s : driver) : driver :=
  {| pixels := pixels s;
     _gpio_setup := _gpio_setup s;
     _clear_on_exit := _clear_on_exit s;
     _handle := _handle s;
     atexit_hooks := atexit_hooks s;
     trace := trace s ++ tr |}.

Definition with_handle (h : option Z) (s : driver) : driver :=
  {| pixels := pixels s;
     _gpio_setup := _gpio_setup s;
     _clear_on_exit := _clear_on_exit s;
     _handle := h;
     atexit_hooks := atexit_hooks s;
     trace := trace s |}.

Definition with_gpio_setup (v : bool) (s : driver) : driver :=
  {| pixels := pixels s;
     _gpio_setup := v;
     _clear_on_exit := _clear_on_exit s;
     _handle := _handle s;
     atexit_hooks := atexit_hooks s;
     trace := trace s |}.

(** One more registration of [_exit] with [atexit]. *)
Definition registered (s : driver) : driver :=
  {| pixels := pixels s;
     _gpio_setup := _gpio_setup s;
     _clear_on_exit := _clear_on_exit s;
     _handle := _handle s;
     atexit_hooks := Datatypes.S (atexit_hooks s);
     trace := trace s ++ [AtexitRegister] |}.

Definition set_handle (h : option Z) : M driver unit :=
  fun s => (Ok tt, with_handle h s).

Definition set_gpio_setup (v : bool) : M driver unit :=
  fun s => (Ok tt, with_gpio_setup v s).


(** [try: body / except lgpio.error: handler] *)
Definition try_except {S A : Type} (body handler : M S A) : M S A :=
  fun s =>
    match body s with
    | (Raise LgpioError, s') => handler s'
    | other => other
    end.

(** ['pinctrl-rp1' in text] *)
Fixpoint contains (needle text : string) : bool :=
  String.prefix needle text
  || match text with
     | EmptyString => false
     | String _ rest => contains needle rest
     end.

(** The loop of [_find_rp1_chip] over the label files in sorted path order,
    each given as the chip number its path carries and the file's text. *)
Fixpoint find_rp1 (labels : list (Z * string)) : Z :=
  match labels with
  | [] => 0
  | (n, text) :: rest =>
      if contains "pinctrl-rp1" text then n else find_rp1 rest
  end.

Section Driver.

(** The outside world: what a call into [lgpio] returns or raises, given
    the calls made before it, and the label files under [/sys/bus/gpio]. *)
Variable respond : list call -> call -> result Z.
Variable chip_labels : list (Z * string).

Definition lgpio_call (c : call) : M driver Z :=
  fun s => (respond (trace s) c, log c s).

Definition emit (c : call) : M driver unit :=
  fun s => (Ok tt, log c s).

Definition _find_rp1_chip : M driver Z :=
  emit ScanChipLabels ;;; ret (find_rp1 chip_labels).

Definition gpio_write (gpio level : Z) : M driver unit :=
  s <- get ;;
  _ <- lgpio_call (GpioWrite (_handle s) gpio level) ;;
  ret tt.

Definition gpio_claim_output (gpio : Z) : M driver unit :=
  s <- get ;;
  _ <- lgpio_call (GpioClaimOutput (_handle s) gpio) ;;
  ret tt.

Definition gpio_free (gpio : Z) : M driver unit :=
  s <- get ;;
  _ <- lgpio_call (GpioFree (_handle s) gpio) ;;
  ret tt.

Definition time_sleep : M driver unit := emit (TimeSleep HALF_CYCLE_NS).

(** The body of [_write_byte]'s loop, [n] iterations from the current
    value of the local [byte]. *)
Fixpoint write_bits (n : nat) (byte : Z) : M driver unit :=
  match n with
  | O => ret tt
  | Datatypes.S n' =>
      gpio_write DAT (if Z.eqb (Z.land byte 128) 0 then 0 else 1) ;;;
      gpio_write CLK 1 ;;;
      time_sleep ;;;
      gpio_write CLK 0 ;;;
      time_sleep ;;;
      write_bits n' (Z.shiftl byte 1)
  end.

Definition _write_byte (byte : Z) : M driver unit := write_bits 8 byte.

Definition clock_pulse : M driver unit :=
  gpio_write CLK 1 ;;;
  time_sleep ;;;
  gpio_write CLK 0 ;;;
  time_sleep.

Definition _eof : M driver unit :=
  gpio_write DAT 0 ;;;
  for_range 36 (fun _ => clock_pulse).

Definition _sof : M driver unit :=
  gpio_write DAT 0 ;;;
  for_range 32 (fun _ => clock_pulse).

(** [try: claim / except lgpio.error: free; claim], as [show] does for
    [DAT] and then for [CLK]. *)
Definition claim_or_reclaim (gpio : Z) : M driver unit :=
  try_except (gpio_claim_output gpio)
             (gpio_free gpio ;;; gpio_claim_output gpio).

Definition atexit_register : M driver unit :=
  fun s => (Ok tt, registered s).

(** [_handle = lgpio.gpiochip_open(_find_rp1_chip())] *)
Definition open_chip : M driver unit :=
  chip <- _find_rp1_chip ;;
  h <- lgpio_call (GpiochipOpen chip) ;;
  set_handle (Some h).

(** The [if not _gpio_setup:] block of [show]. *)
Definition setup : M driver unit :=
  open_chip ;;;
  claim_or_reclaim DAT ;;;
  claim_or_reclaim CLK ;;;
  atexit_register ;;;
  set_gpio_setup true.

(** The body of [for pixel in pixels:]. *)
Definition show_pixel (l : loc) : M driver unit :=
  p <- on_pixels (deref l) ;;
  _write_byte (Z.lor 224 (brightness p)) ;;;
  _write_byte (blue p) ;;;
  _write_byte (green p) ;;;
  _write_byte (red p).

(** What [show] does once the pins are set up. *)
Definition transmit : M driver unit :=
  _sof ;;;
  (s <- get ;; for_each (slots (pixels s)) show_pixel) ;;;
  _eof.

Definition show : M driver unit :=
  s <- get ;;
  (if _gpio_setup s then ret tt else setup) ;;;
  transmit.

Definition _exit : M driver unit :=
  s <- get ;;
  (if _clear_on_exit s then on_pixels clear ;;; show else ret tt) ;;;
  s' <- get ;;
  match _handle s' with
  | Some h => _ <- lgpio_call (GpiochipClose (Some h)) ;; set_handle None
  | None => ret tt
  end.

End Driver.

(** ** What is expected on the wire *)

(** One clock pulse: clock high, half-cycle delay, clock low, half-cycle
    delay. *)
Definition pulse (h : option Z) : list call :=
  [GpioWrite h CLK 1; TimeSleep HALF_CYCLE_NS;
   GpioWrite h CLK 0; TimeSleep HALF_CYCLE_NS].

Definition bit_of (byte : Z) (k : Z) : Z := if Z.testbit byte k then 1 else 0.

(** One bit: the data line set to the bit, then one pulse. *)
Definition bit_frame (h : option Z) (level : Z) : list call :=
  GpioWrite h DAT level :: pulse h.

(** One byte, most significant bit first. *)
Definition byte_frame (h : option Z) (byte : Z) : list call :=
  flat_map (fun k => bit_frame h (bit_of byte k)) [7; 6; 5; 4; 3; 2; 1; 0].

(** What the loop of [_write_byte] sends in [n] iterations, as it tests
    the top bit and shifts the byte. *)
Fixpoint bits_frame (h : option Z) (n : nat) (byte : Z) : list call :=
  match n with
  | O => []
  | Datatypes.S n' =>
      bit_frame h (if Z.eqb (Z.land byte 128) 0 then 0 else 1)
      ++ bits_frame h n' (Z.shiftl byte 1)
  end.

Definition pixel_frame (h : option Z) (p : pixel) : list call :=
  byte_frame h (Z.lor 224 (brightness p)) ++ byte_frame h (blue p)
  ++ byte_frame h (green p) ++ byte_frame h (red p).

Fixpoint pulses (h : option Z) (n : nat) : list call :=
  match n with
  | O => []
  | Datatypes.S n' => pulse h ++ pulses h n'
  end.

Definition start_frame (h : option Z) : list call :=
  GpioWrite h DAT 0 :: pulses h 32.

Definition end_frame (h : option Z) : list call :=
  GpioWrite h DAT 0 :: pulses h 36.

Definition transmission (h : option Z) (ps : list pixel) : list call :=
  start_frame h ++ flat_map (pixel_frame h) ps ++ end_frame h.

(** The receiving side.  A clock pulse is a write of 1 to [CLK], the
    half-cycle delay, a write of 0 to [CLK] and the delay again; the chain
    samples [DAT] at each write of 1 to [CLK]. *)
Definition starts_with_pulse (tr : list call) : bool :=
  match tr with
  | GpioWrite _ g1 l1 :: tr1 =>
      Z.eqb g1 CLK && Z.eqb l1 1
      && match tr1 with
         | TimeSleep d1 :: GpioWrite _ g0 l0 :: TimeSleep d0 :: _ =>
             Z.eqb d1 HALF_CYCLE_NS && Z.eqb g0 CLK && Z.eqb l0 0
             && Z.eqb d0 HALF_CYCLE_NS
         | _ => false
         end
  | _ => false
  end.

Fixpoint count_pulses (tr : list call) : nat :=
  match tr with
  | [] => 0
  | c :: rest =>
      (if starts_with_pulse (c :: rest) then 1 else 0) + count_pulses rest
  end%nat.

Fixpoint sample (dat : Z) (tr : list call) : list Z :=
  match tr with
  | GpioWrite _ gpio level :: rest =>
      if Z.eqb gpio DAT then sample level rest
      else if Z.eqb gpio CLK && Z.eqb level 1 then dat :: sample dat rest
      else sample dat rest
  | _ :: rest => sample dat rest
  | [] => []
  end.

(** Sampled bits to bytes, most significant bit first. *)
Fixpoint bytes_of_bits (bits : list Z) : list Z :=
  match bits with
  | b7 :: b6 :: b5 :: b4 :: b3 :: b2 :: b1 :: b0 :: rest =>
      (128 * b7 + 64 * b6 + 32 * b5 + 16 * b4 + 8 * b3 + 4 * b2 + 2 * b1 + b0)
      :: bytes_of_bits rest
  | _ => []
  end.

Definition wire_bytes (tr : list call) : list Z := bytes_of_bits (sample 0 tr).




(** The calls one pin's claim may make in a set-up that goes through:
    the claim alone, or the claim, the forced release and the one retry. *)
Definition claim_calls (h : option Z) (gpio : Z) (tr : list call) : bool :=
  match tr with
  | [GpioClaimOutput h1 g1] => bool_decide (h1 = h) && Z.eqb g1 gpio
  | [GpioClaimOutput h1 g1; GpioFree h2 g2; GpioClaimOutput h3 g3] =>
      bool_decide (h1 = h) && bool_decide (h2 = h) && bool_decide (h3 = h)
      && Z.eqb g1 gpio && Z.eqb g2 gpio && Z.eqb g3 gpio
  | _ => false
  end.

(** A device on which writing a level to a pin never raises. *)
Definition writes_ok (respond : list call -> call -> result Z) : Prop :=
  forall tr h gpio level, exists v, respond tr (GpioWrite h gpio level) = Ok v.

(** Worlds to run the driver in: one where every call returns, one
    where a pin is held by someone else until it is force-released, and
    one where a pin stays held whatever is done. *)
Definition world_ok (tr : list call) (c : call) : result Z := Ok 0.



Definition world_stuck (tr : list call) (c : call) : result Z :=
  match c with
  | GpioClaimOutput _ _ => Raise LgpioError
  | _ => Ok 0
  end.

(** A world where a pin is held and cannot be released either: both the
    claim and the forced release raise. *)
Definition world_held (tr : list call) (c : call) : result Z :=
  match c with
  | GpioClaimOutput _ _ | GpioFree _ _ => Raise LgpioError
  | _ => Ok 0
  end.

Definition labels_pi5 : list (Z * string) :=
  [(0, "gpio-brcmstb@107d508500"%string); (4, "pinctrl-rp1"%string)].

(** ** Further definitions: invariants, sequences of calls, the receiver *)

(** Every list object holds channels of 8 bits and a brightness of 5. *)
Definition buffer_in_range (s : buffer) : bool :=
  forallb pixel_in_range (heap s).

(** A call into the pixel buffer, and a sequence of them run one after the
    other, each from the buffer the one before left, raised or not. *)
Inductive api_call : Type :=
| SetPixel (x : Z) (r g b : pynum) (br : option pynum)
| SetAll (r g b : pynum) (br : option pynum)
| Clear
| SetBrightness (b : pynum).

Definition run_call (c : api_call) : M buffer unit :=
  match c with
  | SetPixel x r g b br => set_pixel x r g b br
  | SetAll r g b br => set_all r g b br
  | Clear => clear
  | SetBrightness b => set_brightness b
  end.

Fixpoint run_calls (cs : list api_call) (s : buffer) : buffer :=
  match cs with
  | [] => s
  | c :: cs' => run_calls cs' (snd (run_call c s))
  end.

(** The brightness [set_pixel] stores: the quantised argument, or what
    the pixel had. *)
Definition new_brightness (q : option Z) (p : pixel) : Z :=
  match q with
  | Some z => z
  | None => brightness p
  end.

(** The receiving chain: after the four zero bytes of the start frame,
    each group of four bytes whose first carries the [0b111] marker is one
    pixel, sent as brightness, blue, green, red; the first byte without
    the marker ends the frame. *)
Fixpoint decode_pixels (fuel : nat) (bytes : list Z) : list pixel :=
  match fuel, bytes with
  | Datatypes.S fuel', a :: b :: g :: r :: rest =>
      if Z.eqb (Z.land a 224) 224
      then Pixel r g b (Z.land a 31) :: decode_pixels fuel' rest
      else []
  | _, _ => []
  end.

Definition decode_transmission (bytes : list Z) : option (list pixel) :=
  match bytes with
  | 0 :: 0 :: 0 :: 0 :: rest => Some (decode_pixels (length rest) rest)
  | _ => None
  end.

(** What [set_pixel] makes of its brightness argument before it stores
    anything: nothing when omitted, the quantised value otherwise. *)
Definition quantized (br : option pynum) : result (option Z) :=
  match br with
  | None => Ok None
  | Some v =>
      match quantize v with
      | Ok z => Ok (Some z)
      | Raise e => Raise e
      end
  end.

(** The brightness left by writing back what [get_pixel] reported for a
    stored brightness [q]. *)
Definition read_back (q : Z) : Z :=
  if Z.eqb q 0 || (2 <=? q mod 4) then q else q - 1.

(** What every call into the buffer keeps: it is well formed and in range. *)
Definition sound (s : buffer) : Prop := wf s /\ buffer_in_range s = true.

(** The eight levels sampled for one byte, in the order they are sent. *)
Definition byte_bits (x : Z) : list Z :=
  [bit_of x 7; bit_of x 6; bit_of x 5; bit_of x 4;
   bit_of x 3; bit_of x 2; bit_of x 1; bit_of x 0].

(** The four bytes the chain receives for a stored pixel. *)
Definition pixel_bytes (p : pixel) : list Z :=
  [224 + brightness p; blue p; green p; red p].

(** The driver with another pixel buffer. *)
Definition with_pixels (b : buffer) (s : driver) : driver :=
  {| pixels := b;
     _gpio_setup := _gpio_setup s;
     _clear_on_exit := _clear_on_exit s;
     _handle := _handle s;
     atexit_hooks := atexit_hooks s;
     trace := trace s |}.

(** A device on which closing the chip never raises. *)
Definition closes_ok (respond : list call -> call -> result Z) : Prop :=
  forall tr h, exists v, respond tr (GpiochipClose h) = Ok v.

(** A computation of the driver that leaves the pixel buffer and the
    clear-on-exit flag as they were, however it ends. *)
Definition keeps_buffer {A : Type} (m : M driver A) : Prop :=
  forall s, pixels (snd (m s)) = pixels s
            /\ _clear_on_exit (snd (m s)) = _clear_on_exit s.

(** A world where the chip cannot be opened. *)
Definition world_no_chip (tr : list call) (c : call) : result Z :=
  match c with
  | GpiochipOpen _ => Raise LgpioError
  | _ => Ok 0
  end.

(** ** The status daemon ([blinkt_status.py]), a client of the driver *)

Module blinkt_status.

(** [BRIGHTNESS = 0.05], and the float literals [100.0] and, for the int
    [7] of [cpu / 100.0 * 7], [7.0]. *)
Definition BRIGHTNESS : float := S754_finite false 7205759403792794 (-57).
Definition f100 : float := S754_finite false 7036874417766400 (-46).
Definition f7 : float := S754_finite false 7881299347898368 (-50).

Definition CPU_COLORS : list (Z * Z * Z) :=
  [(0, 255, 0); (0, 255, 0); (255, 255, 0); (255, 255, 0);
   (255, 100, 0); (255, 100, 0); (255, 0, 0)].

Section Status.

Variable respond : list call -> call -> result Z.
Variable chip_labels : list (Z * string).

(** [blinkt.set_pixel(x, r, g, b, BRIGHTNESS)] *)
Definition light (x r g b : Z) : M driver unit :=
  on_pixels (set_pixel x (PyInt r) (PyInt g) (PyInt b)
               (Some (PyFloat BRIGHTNESS))).

(** The body of [for i in range(7)]. *)
Definition light_bar (lit_count : Z) (i : nat) : M driver unit :=
  if Z.of_nat i <? lit_count then
    match CPU_COLORS !! i with
    | Some (r, g, b) => light (Z.of_nat i + 1) r g b
    | None => raise IndexError
    end
  else ret tt.

(** [update_leds(check_fn)], given what [check_fn()] returns and what
    [psutil.cpu_percent(interval=None)] reports. *)
Definition update_leds (check_fn : bool) (cpu : float) : M driver unit :=
  on_pixels clear ;;;
  (if check_fn then light 0 255 255 255 else light 0 255 0 0) ;;;
  lit_count <- lift (py_round (fmul (fdiv cpu f100) f7)) ;;
  for_range 7 (light_bar lit_count) ;;;
  show respond chip_labels.

End Status.

End blinkt_status.

(** A label file has the text [needle] somewhere in it. *)
Definition has_substring (needle text : string) : Prop :=
  exists pre post : string,
    text = String.append pre (String.append needle post).

(** ** Floating-point facts: [31.0 * b] never overflows on the unit interval *)

Section FloatBounds.

Lemma digits2_pos_upper (p : positive) (k : Z) :
  0 <= k -> Zpos p < 2 ^ k -> Zpos (digits2_pos p) <= k.
Proof.
  revert k. induction p as [p IH | p IH |]; intros k Hk Hlt; cbn [digits2_pos].
  - assert (k <> 0) by (intros ->; cbn in Hlt; lia).
    replace k with (Z.succ (k - 1)) in Hlt by lia.
    rewrite Z.pow_succ_r in Hlt by lia.
    specialize (IH (k - 1) ltac:(lia) ltac:(lia)). lia.
  - assert (k <> 0) by (intros ->; cbn in Hlt; lia).
    replace k with (Z.succ (k - 1)) in Hlt by lia.
    rewrite Z.pow_succ_r in Hlt by lia.
    specialize (IH (k - 1) ltac:(lia) ltac:(lia)). lia.
  - assert (k <> 0) by (intros ->; cbn in Hlt; lia). lia.
Qed.

Lemma digits2_pos_lower (p : positive) :
  Zpos p < 2 ^ Zpos (digits2_pos p).
Proof.
  induction p as [p IH | p IH |]; cbn [digits2_pos].
  - rewrite Pos2Z.inj_succ, Z.pow_succ_r by lia. lia.
  - rewrite Pos2Z.inj_succ, Z.pow_succ_r by lia. lia.
  - cbn. lia.
Qed.

Lemma Zdigits2_upper (m k : Z) :
  0 <= k -> 0 <= m < 2 ^ k -> Zdigits2 m <= k.
Proof.
  intros Hk [Hm Hlt]. destruct m as [| p | p]; cbn [Zdigits2]; try lia.
  now apply digits2_pos_upper.
Qed.

Lemma shr_1_bounds (r : shr_record) :
  0 <= shr_m r -> 0 <= shr_m (shr_1 r) <= shr_m r.
Proof.
  destruct r as [m b c]. cbn [shr_m]. intros Hm.
  destruct m as [| [p | p |] | p]; cbn; lia.
Qed.

Lemma iter_shr_1_bounds (p : positive) (r : shr_record) :
  0 <= shr_m r -> 0 <= shr_m (SpecFloat.iter_pos shr_1 p r) <= shr_m r.
Proof.
  revert r. induction p as [p IH | p IH |]; intros r Hr; cbn [SpecFloat.iter_pos].
  - pose proof (shr_1_bounds r Hr) as H1.
    pose proof (IH (shr_1 r) ltac:(lia)) as H2.
    pose proof (IH (SpecFloat.iter_pos shr_1 p (shr_1 r)) ltac:(lia)) as H3. lia.
  - pose proof (IH r Hr) as H2.
    pose proof (IH (SpecFloat.iter_pos shr_1 p r) ltac:(lia)) as H3. lia.
  - now apply shr_1_bounds.
Qed.

Lemma shr_fexp_bounds (m e : Z) (l : location) (r : shr_record) (e1 : Z) :
  0 <= m ->
  shr_fexp prec emax m e l = (r, e1) ->
  0 <= shr_m r <= m /\ e1 = Z.max e (fexp prec emax (Zdigits2 m + e)).
Proof.
  intros Hm. unfold shr_fexp, shr.
  assert (Hrec : shr_m (shr_record_of_loc m l) = m)
    by (destruct l as [| []]; reflexivity).
  destruct (fexp prec emax (Zdigits2 m + e) - e) as [| p | p] eqn:Hd;
    intros [= <- <-].
  - rewrite Hrec. lia.
  - pose proof (iter_shr_1_bounds p (shr_record_of_loc m l)) as H.
    rewrite Hrec in H. lia.
  - rewrite Hrec. lia.
Qed.

Lemma round_nearest_even_bounds (m : Z) (l : location) :
  0 <= m -> 0 <= round_nearest_even m l <= m + 1.
Proof.
  intros Hm. unfold round_nearest_even.
  destruct l as [| []]; try destruct (Z.even m); lia.
Qed.

(** Rounding a non-negative mantissa of at most 400 bits at an exponent
    [e <= 0] yields zero or a finite number. *)
Lemma binary_round_aux_finite (s : bool) (m e : Z) (l : location) (k : Z) :
  0 <= k <= 400 -> 0 <= m < 2 ^ k -> e <= 0 ->
  match binary_round_aux prec emax s m e l with
  | S754_zero _ | S754_finite _ _ _ => True
  | _ => False
  end.
Proof.
  intros Hk Hm He. unfold binary_round_aux.
  destruct (shr_fexp prec emax m e l) as [r1 e1] eqn:H1.
  apply shr_fexp_bounds in H1 as [Hr1 He1]; [| lia].
  pose proof (round_nearest_even_bounds (shr_m r1) (loc_of_shr_record r1)
                ltac:(lia)) as Hrn.
  set (m1 := round_nearest_even (shr_m r1) (loc_of_shr_record r1)) in *.
  destruct (shr_fexp prec emax m1 e1 loc_Exact) as [r2 e2] eqn:H2.
  apply shr_fexp_bounds in H2 as [Hr2 He2]; [| lia].
  pose proof (Zdigits2_upper m k ltac:(lia) Hm) as Hd.
  assert (Hm1 : 0 <= m1 < 2 ^ (k + 1)).
  { rewrite Z.pow_add_r by lia. change (2 ^ 1) with 2. lia. }
  pose proof (Zdigits2_upper m1 (k + 1) ltac:(lia) Hm1) as Hd1.
  assert (Hd0 : 0 <= Zdigits2 m) by (destruct m; cbn; lia).
  assert (Hd10 : 0 <= Zdigits2 m1) by (destruct m1; cbn; lia).
  unfold fexp, emin, prec, emax in *.
  destruct (shr_m r2) as [| p | p] eqn:Hm2; [exact I | | lia].
  destruct (Z.leb_spec e2 (1024 - 53)); [exact I | lia].
Qed.

Lemma is_float_mantissa (s : bool) (m : positive) (e : Z) :
  is_float (S754_finite s m e) = true -> Zpos m < 2 ^ 53.
Proof.
  unfold is_float, valid_binary, bounded, canonical_mantissa, fexp, emin, prec, emax.
  intros H. apply andb_prop in H as [H1 _]. apply Z.eqb_eq in H1.
  pose proof (digits2_pos_lower m) as Hlow.
  assert (Hd : Zpos (digits2_pos m) <= 53) by lia.
  eapply Z.lt_le_trans; [exact Hlow |].
  apply Z.pow_le_mono_r; lia.
Qed.

End FloatBounds.

(** ** Properties of the pixel buffer *)

Section BufferFacts.

Lemma bind_ok {S A B : Type} (m : M S A) (k : A -> M S B) (s s' : S) (a : A) :
  m s = (Ok a, s') -> bind m k s = k a s'.
Proof. intros H. unfold bind. now rewrite H. Qed.

Lemma bind_raise {S A B : Type} (m : M S A) (k : A -> M S B) (s s' : S) (e : exn) :
  m s = (Raise e, s') -> bind m k s = (Raise e, s').
Proof. intros H. unfold bind. now rewrite H. Qed.

Lemma for_from_ext {S : Type} (body1 body2 : nat -> M S unit) :
  (forall x s, body1 x s = body2 x s) ->
  forall n start s, for_from start n body1 s = for_from start n body2 s.
Proof.
  intros Hext. induction n as [| n IH]; intros start s; cbn [for_from].
  - reflexivity.
  - unfold bind. rewrite Hext. destruct (body2 start s) as [[[] | e] s1].
    + apply IH.
    + reflexivity.
Qed.

Lemma buffer_eta (s : buffer) : Buffer (slots s) (heap s) = s.
Proof. now destruct s. Qed.

Lemma wf_length (s : buffer) : wf s -> length (slots s) = NUM_PIXELS.
Proof.
  unfold wf, wfb. intros H. apply andb_prop in H as [H _].
  now apply Nat.eqb_eq in H.
Qed.

Lemma wf_heap (s : buffer) :
  wf s -> Forall (fun l => (l < length (heap s))%nat) (slots s).
Proof.
  unfold wf, wfb. intros H. apply andb_prop in H as [_ H].
  rewrite forallb_forall in H. apply Forall_forall. intros l Hl.
  apply Nat.ltb_lt, H. now apply list_elem_of_In.
Qed.

Lemma wf_intro (s : buffer) :
  length (slots s) = NUM_PIXELS ->
  Forall (fun l => (l < length (heap s))%nat) (slots s) ->
  wf s.
Proof.
  intros Hlen Hall. unfold wf, wfb. apply andb_true_intro. split.
  - now apply Nat.eqb_eq.
  - apply forallb_forall. intros l Hl. apply Nat.ltb_lt.
    rewrite Forall_forall in Hall. apply Hall. now apply list_elem_of_In.
Qed.

Lemma wf_pixel_at (s : buffer) (i : nat) :
  wf s -> (i < NUM_PIXELS)%nat ->
  exists l p, slots s !! i = Some l /\ heap s !! l = Some p
              /\ pixel_at s i = Some p.
Proof.
  intros Hwf Hi. pose proof (wf_length s Hwf) as Hlen.
  destruct (lookup_lt_is_Some_2 (slots s) i ltac:(lia)) as [l Hl].
  pose proof (wf_heap s Hwf) as Hall. rewrite Forall_lookup in Hall.
  pose proof (Hall i l Hl) as Hlt.
  destruct (lookup_lt_is_Some_2 (heap s) l Hlt) as [p Hp].
  exists l, p. unfold pixel_at. rewrite Hl. auto.
Qed.

Lemma py_index_nat (len i : nat) :
  (i < len)%nat -> py_index len (Z.of_nat i) = Ok i.
Proof.
  intros Hi. unfold py_index.
  destruct (Z.leb_spec 0 (Z.of_nat i)); [| lia].
  destruct (Z.ltb_spec (Z.of_nat i) (Z.of_nat len)); [| lia].
  cbn. now rewrite Nat2Z.id.
Qed.

Lemma py_index_out (len : nat) (x : Z) :
  x < - Z.of_nat len \/ Z.of_nat len <= x -> py_index len x = Raise IndexError.
Proof.
  intros Hx. unfold py_index.
  destruct (Z.leb_spec 0 x), (Z.ltb_spec x (Z.of_nat len)),
    (Z.leb_spec (- Z.of_nat len) x), (Z.ltb_spec x 0); cbn; try reflexivity; lia.
Qed.

Lemma slot_ref_nat (s : buffer) (i : nat) (l : loc) :
  slots s !! i = Some l -> slot_ref (Z.of_nat i) s = (Ok l, s).
Proof.
  intros Hl. unfold slot_ref.
  rewrite py_index_nat by (eapply lookup_lt_Some; eauto).
  now rewrite Hl.
Qed.

Lemma update_ok (s : buffer) (l : loc) (p : pixel) (f : pixel -> pixel) :
  heap s !! l = Some p ->
  update l f s = (Ok tt, Buffer (slots s) (<[l := f p]> (heap s))).
Proof. intros Hp. unfold update. now rewrite Hp. Qed.

(** A loop that updates, in place, the list object behind each position
    from [start] on: every object referred to from one of these positions
    is updated (once in effect, however many positions share it), and no
    other object is touched. *)
Lemma update_loop (f : pixel -> pixel) :
  (forall p, f (f p) = f p) ->
  forall (n start : nat) (s : buffer),
    (start + n <= length (slots s))%nat ->
    Forall (fun l => (l < length (heap s))%nat) (slots s) ->
    exists h',
      for_from start n
        (fun x => l <- slot_ref (Z.of_nat x) ;; update l f) s
      = (Ok tt, Buffer (slots s) h')
      /\ length h' = length (heap s)
      /\ forall l, h' !! l =
           if decide (l ∈ take n (drop start (slots s)))
           then f <$> heap s !! l else heap s !! l.
Proof.
  intros Hf. induction n as [| n IH]; intros start s Hlen Hall.
  - exists (heap s). cbn [for_from]. unfold ret. rewrite buffer_eta.
    split; [reflexivity | split; [reflexivity |]]. intros l. rewrite take_0.
    destruct (decide (l ∈ [])) as [Hin | _]; [| reflexivity].
    now apply elem_of_nil in Hin.
  - destruct (lookup_lt_is_Some_2 (slots s) start ltac:(lia)) as [l0 Hl0].
    assert (Hlt0 : (l0 < length (heap s))%nat)
      by (rewrite Forall_lookup in Hall; eauto).
    destruct (lookup_lt_is_Some_2 (heap s) l0 Hlt0) as [p0 Hp0].
    set (s1 := Buffer (slots s) (<[l0 := f p0]> (heap s))).
    destruct (IH (Datatypes.S start) s1) as (h' & Hrun & Hlen' & Hh').
    { cbn. lia. }
    { cbn. rewrite length_insert. exact Hall. }
    exists h'. split; [| split].
    + cbn [for_from]. unfold bind at 1.
      rewrite (bind_ok _ _ s s l0) by now apply slot_ref_nat.
      rewrite (update_ok s l0 p0) by exact Hp0. exact Hrun.
    + rewrite Hlen'. cbn. now rewrite length_insert.
    + intros l. rewrite Hh'. cbn [slots heap s1].
      rewrite (drop_S _ _ _ Hl0). cbn [take].
      destruct (decide (l = l0)) as [-> | Hne].
      * rewrite list_lookup_insert_eq by exact Hlt0. rewrite Hp0. cbn.
        rewrite Hf. repeat case_decide; try reflexivity;
          exfalso; match goal with H : _ ∉ _ :: _ |- _ => apply H; left end.
      * rewrite list_lookup_insert_ne by congruence.
        repeat case_decide; try reflexivity; exfalso.
        -- match goal with H : _ ∉ _ :: _ |- _ => apply H; now right end.
        -- match goal with H : _ ∈ _ :: _ |- _ =>
             apply elem_of_cons in H as [? | ?]; contradiction end.
Qed.

(** The same loop run over all [NUM_PIXELS] positions of a well-formed
    buffer: every observed pixel is updated. *)
Lemma update_all (f : pixel -> pixel) (s : buffer) :
  (forall p, f (f p) = f p) ->
  wf s ->
  exists s',
    for_range NUM_PIXELS
      (fun x => l <- slot_ref (Z.of_nat x) ;; update l f) s = (Ok tt, s')
    /\ wf s'
    /\ slots s' = slots s
    /\ forall i, (i < NUM_PIXELS)%nat -> pixel_at s' i = f <$> pixel_at s i.
Proof.
  intros Hf Hwf. pose proof (wf_length s Hwf) as Hlen.
  pose proof (wf_heap s Hwf) as Hall.
  destruct (update_loop f Hf NUM_PIXELS 0%nat s ltac:(lia) Hall)
    as (h' & Hrun & Hlen' & Hh').
  exists (Buffer (slots s) h'). split; [exact Hrun |]. split; [| split].
  - apply wf_intro; cbn; [exact Hlen | now rewrite Hlen'].
  - reflexivity.
  - intros i Hi. unfold pixel_at. cbn [slots heap].
    destruct (lookup_lt_is_Some_2 (slots s) i ltac:(lia)) as [l Hl].
    rewrite Hl, Hh'. rewrite drop_0, <- Hlen, firstn_all.
    case_decide as Hnin; [reflexivity |].
    exfalso. apply Hnin. eapply list_elem_of_lookup_2; eauto.
Qed.

End BufferFacts.

Section QuantizeFacts.

Lemma fmul31_converts (f : float) :
  is_float f = true -> fle f0 f = true -> fle f f1 = true ->
  exists z, py_int (PyFloat (fmul f31 f)) = Ok z.
Proof.
  intros Hv H0 H1. destruct f as [s | s | | s m e].
  - exists 0. reflexivity.
  - destruct s; discriminate.
  - discriminate.
  - destruct s; [discriminate |].
    assert (He : e <= -52).
    { unfold fle, SFleb, SFcompare, f1 in H1.
      destruct (Z.compare_spec e (-52)); [lia | lia | discriminate]. }
    pose proof (is_float_mantissa false m e Hv) as Hm.
    pose proof (binary_round_aux_finite false
                  (Zpos (8725724278030336 * m)) (-48 + e) loc_Exact 106) as Hr.
    unfold fmul, f31, SFmul. cbn [xorb].
    destruct (binary_round_aux prec emax false
                (Z.pos (8725724278030336 * m)) (-48 + e) loc_Exact)
      as [s' | s' | | s' m' e'].
    + exists 0. reflexivity.
    + exfalso. apply Hr; [lia | | lia].
      rewrite Pos2Z.inj_mul. change (2 ^ 106) with (2 ^ 53 * 2 ^ 53).
      split; [lia |]. apply Z.mul_lt_mono_nonneg; [lia | reflexivity | lia | exact Hm].
    + exfalso. apply Hr; [lia | | lia].
      rewrite Pos2Z.inj_mul. change (2 ^ 106) with (2 ^ 53 * 2 ^ 53).
      split; [lia |]. apply Z.mul_lt_mono_nonneg; [lia | reflexivity | lia | exact Hm].
    + eexists. reflexivity.
Qed.

Lemma land_31_range (z : Z) : 0 <= Z.land z 31 < 32.
Proof.
  change 31 with (Z.ones 5). rewrite Z.land_ones by lia.
  apply Z.mod_pos_bound. reflexivity.
Qed.

Lemma land_255_range (z : Z) : 0 <= Z.land z 255 < 256.
Proof.
  change 255 with (Z.ones 8). rewrite Z.land_ones by lia.
  apply Z.mod_pos_bound. reflexivity.
Qed.

(** On the unit interval the quantisation never raises: the product is
    finite, [int] truncates it, and the mask leaves a 5-bit value. *)
Lemma quantize_total (b : pynum) :
  in_unit_interval b = true ->
  exists f z, py_to_float b = Ok f
              /\ py_int (PyFloat (fmul f31 f)) = Ok z
              /\ quantize b = Ok (Z.land z 31).
Proof.
  intros Hb. destruct b as [z | f]; cbn [in_unit_interval] in Hb.
  - apply andb_prop in Hb as [Hlo Hhi].
    apply Z.leb_le in Hlo. apply Z.leb_le in Hhi.
    assert (Hz : z = 0 \/ z = 1) by lia.
    destruct Hz as [-> | ->].
    + exists (S754_zero false), 0. vm_compute. auto.
    + exists f1, 31. vm_compute. auto.
  - apply andb_prop in Hb as [Hb H1]. apply andb_prop in Hb as [Hv H0].
    destruct (fmul31_converts f Hv H0 H1) as [z Hz].
    exists f, z. unfold quantize. cbn [py_to_float]. rewrite Hz. auto.
Qed.

Lemma in_unit_not_outside (b : pynum) :
  in_unit_interval b = true -> outside_unit_interval b = false.
Proof.
  intros Hb. unfold outside_unit_interval.
  destruct b as [z | f]; cbn [in_unit_interval py_lt_lit py_gt_lit] in *.
  - apply andb_prop in Hb as [Hlo Hhi].
    apply Z.leb_le in Hlo. apply Z.leb_le in Hhi.
    destruct (Z.ltb_spec z 0), (Z.ltb_spec 1 z); cbn; try reflexivity; lia.
  - apply andb_prop in Hb as [Hb H1]. apply andb_prop in Hb as [_ H0].
    destruct f as [s | s | | s m e]; try discriminate.
    + reflexivity.
    + destruct s; discriminate.
    + destruct s; [discriminate |].
      unfold fle, SFleb, SFcompare, f1 in H1.
      unfold flt, SFltb, SFcompare, f0, f1. cbn [orb].
      rewrite (Z.compare_antisym e (-52)).
      assert (Hanti : Pos.compare_cont Eq 4503599627370496 m
                      = CompOpp (Pos.compare_cont Eq m 4503599627370496))
        by (symmetry; apply (Pos.compare_cont_antisym m 4503599627370496 Eq)).
      rewrite Hanti.
      cbn [CompOpp].
      destruct (e ?= -52); cbn [CompOpp] in *; try reflexivity; try discriminate.
      destruct (Pos.compare_cont Eq m 4503599627370496); cbn; try reflexivity;
        discriminate.
Qed.

(** A 5-bit brightness converts to a float, so [get_pixel] reports it. *)
Lemma reported_5bit (q : Z) : 0 <= q < 32 -> exists fr, reported q = Ok fr.
Proof.
  intros Hq.
  assert (Hn : exists n, (n < 32)%nat /\ q = Z.of_nat n)
    by (exists (Z.to_nat q); lia).
  destruct Hn as (n & Hn & ->).
  do 32 (destruct n as [| n]; [eexists; vm_compute; reflexivity |]).
  lia.
Qed.

End QuantizeFacts.

Section AccessFacts.

Lemma py_index_valid (len : nat) (x : Z) :
  0 <= x < Z.of_nat len -> py_index len x = Ok (Z.to_nat x).
Proof.
  intros Hx. rewrite <- (Z2Nat.id x) at 1 by lia. apply py_index_nat. lia.
Qed.

Lemma py_index_negative (len : nat) (x : Z) :
  - Z.of_nat len <= x < 0 -> py_index len x = Ok (Z.to_nat (Z.of_nat len + x)).
Proof.
  intros Hx. unfold py_index.
  destruct (Z.leb_spec 0 x); [lia |]. cbn [andb].
  destruct (Z.leb_spec (- Z.of_nat len) x); [| lia].
  destruct (Z.ltb_spec x 0); [| lia]. reflexivity.
Qed.

Lemma py_index_bound (len : nat) (x : Z) (i : nat) :
  py_index len x = Ok i -> (i < len)%nat.
Proof.
  unfold py_index.
  destruct (Z.leb_spec 0 x), (Z.ltb_spec x (Z.of_nat len)),
    (Z.leb_spec (- Z.of_nat len) x), (Z.ltb_spec x 0); cbn;
    intros [= <-]; lia.
Qed.

(** [get_pixel] reads nothing but the pixel observed at the position. *)
Lemma get_pixel_spec (s : buffer) (x : Z) :
  get_pixel x s =
  match py_index (length (slots s)) x with
  | Ok i =>
      match pixel_at s i with
      | Some p =>
          match reported (brightness p) with
          | Ok fr => (Ok (red p, green p, blue p, fr), s)
          | Raise e => (Raise e, s)
          end
      | None => (Raise IndexError, s)
      end
  | Raise e => (Raise e, s)
  end.
Proof.
  unfold get_pixel, bind, slot_ref, deref, pixel_at, reported, lift, ret.
  destruct (py_index (length (slots s)) x) as [i | e]; [| reflexivity].
  destruct (slots s !! i) as [l |]; [| reflexivity].
  destruct (heap s !! l) as [p |]; [| reflexivity].
  destruct (py_float_of_int (brightness p)); reflexivity.
Qed.

(** A [set_pixel] whose arguments convert and whose index resolves to
    position [i] allocates the new list and rebinds the position. *)
Lemma set_pixel_run (s : buffer) (x : Z) (i : nat) (r g b : pynum)
      (br : option pynum) (zr zg zb q : Z) :
  py_index (length (slots s)) x = Ok i ->
  py_int r = Ok zr -> py_int g = Ok zg -> py_int b = Ok zb ->
  match br with
  | None => exists p, pixel_at s i = Some p /\ brightness p = q
  | Some v => quantize v = Ok q
  end ->
  set_pixel x r g b br s =
  (Ok tt, {| slots := <[i := length (heap s)]> (slots s);
             heap := heap s ++ [Pixel (Z.land zr 255) (Z.land zg 255)
                                      (Z.land zb 255) q] |}).
Proof.
  intros Hi Hr Hg Hb Hq. unfold set_pixel.
  assert (Hfirst :
    match br with
    | None => l <- slot_ref x ;; p <- deref l ;; ret (brightness p)
    | Some v => lift (quantize v)
    end s = (Ok q, s)).
  { destruct br as [v |].
    - unfold lift. now rewrite Hq.
    - destruct Hq as (p & Hp & <-). unfold pixel_at in Hp.
      unfold bind, slot_ref, deref, ret. rewrite Hi.
      destruct (slots s !! i) as [l |]; [| discriminate]. now rewrite Hp. }
  rewrite (bind_ok _ _ s s q Hfirst).
  unfold bind, lift, rebind. rewrite Hr, Hg, Hb, Hi. reflexivity.
Qed.

Lemma set_pixel_wf (s : buffer) (i : nat) (p : pixel) :
  wf s ->
  wf {| slots := <[i := length (heap s)]> (slots s); heap := heap s ++ [p] |}.
Proof.
  intros Hwf. apply wf_intro; cbn [slots heap].
  - rewrite length_insert. now apply wf_length.
  - pose proof (wf_heap s Hwf) as Hall. rewrite length_app. cbn [length].
    apply Forall_insert.
    + eapply Forall_impl; [exact Hall |]. cbn. intros; lia.
    + lia.
Qed.

Lemma set_pixel_at_same (s : buffer) (i : nat) (p : pixel) :
  (i < length (slots s))%nat ->
  pixel_at {| slots := <[i := length (heap s)]> (slots s);
              heap := heap s ++ [p] |} i = Some p.
Proof.
  intros Hi. unfold pixel_at. cbn [slots heap].
  rewrite list_lookup_insert_eq by exact Hi.
  now apply list_lookup_middle.
Qed.

Lemma set_pixel_at_other (s : buffer) (i j : nat) (p : pixel) :
  wf s -> i <> j ->
  pixel_at {| slots := <[i := length (heap s)]> (slots s);
              heap := heap s ++ [p] |} j = pixel_at s j.
Proof.
  intros Hwf Hne. unfold pixel_at. cbn [slots heap].
  rewrite list_lookup_insert_ne by exact Hne.
  destruct (slots s !! j) as [l |] eqn:Hl; [| reflexivity].
  pose proof (wf_heap s Hwf) as Hall. rewrite Forall_lookup in Hall.
  apply lookup_app_l. eauto.
Qed.

(** Whatever [set_pixel] does, it either leaves the buffer as it was or
    rebinds the one position its index resolves to. *)
Lemma set_pixel_cases (s s' : buffer) (x : Z) (r g b : pynum)
      (br : option pynum) (res : result unit) :
  set_pixel x r g b br s = (res, s') ->
  s' = s \/
  exists i p, py_index (length (slots s)) x = Ok i /\ res = Ok tt /\
    s' = {| slots := <[i := length (heap s)]> (slots s); heap := heap s ++ [p] |}.
Proof.
  unfold set_pixel. intros H.
  assert (Hq : forall a t,
             match br with
             | None => l <- slot_ref x ;; p <- deref l ;; ret (brightness p)
             | Some v => lift (quantize v)
             end s = (a, t) -> t = s).
  { intros a t. destruct br as [v |]; unfold bind, slot_ref, deref, ret, lift.
    - now intros [= _ <-].
    - destruct (py_index (length (slots s)) x) as [i | e]; [| now intros [= _ <-]].
      destruct (slots s !! i) as [l |]; [| now intros [= _ <-]].
      destruct (heap s !! l); now intros [= _ <-]. }
  unfold bind at 1 in H.
  destruct (match br with
            | None => l <- slot_ref x ;; p <- deref l ;; ret (brightness p)
            | Some v => lift (quantize v)
            end s) as [[q | e] t] eqn:Hfirst.
  2: { injection H as _ <-. left. eapply Hq; eauto. }
  assert (t = s) as -> by (eapply Hq; eauto).
  unfold bind, lift, rebind in H.
  destruct (py_int r) as [zr | e]; [| injection H as _ <-; now left].
  destruct (py_int g) as [zg | e]; [| injection H as _ <-; now left].
  destruct (py_int b) as [zb | e]; [| injection H as _ <-; now left].
  destruct (py_index (length (slots s)) x) as [i | e];
    [| injection H as _ <-; now left].
  injection H as <- <-. right. eauto.
Qed.

End AccessFacts.

(** ** The claims about the pixel buffer *)

(** C1, as amended.  For a well-formed buffer, a valid index [x], colour
    arguments that convert to the ints [zr], [zg], [zb] and a brightness
    [br] in [0.0, 1.0], [set_pixel(x, r, g, b, br)] returns, and
    [get_pixel(x)] then returns the three channels masked to 8 bits and
    [round(q / 31.0, 3)], where the stored brightness [q] is
    [int(31.0 * br)], the product truncated toward zero, masked to 5 bits. *)
Theorem set_pixel_then_get_pixel (s : buffer) (x : Z) (r g b br : pynum)
        (zr zg zb : Z) :
  wf s ->
  0 <= x < Z.of_nat NUM_PIXELS ->
  py_int r = Ok zr -> py_int g = Ok zg -> py_int b = Ok zb ->
  in_unit_interval br = true ->
  exists (f : float) (z : Z) (fr : float) (s' : buffer),
    py_to_float br = Ok f
    /\ py_int (PyFloat (fmul f31 f)) = Ok z
    /\ reported (Z.land z 31) = Ok fr
    /\ set_pixel x r g b (Some br) s = (Ok tt, s')
    /\ get_pixel x s' =
       (Ok (Z.land zr 255, Z.land zg 255, Z.land zb 255, fr), s').
Proof.
  intros Hwf Hx Hr Hg Hb Hbr.
  destruct (quantize_total br Hbr) as (f & z & Hf & Hz & Hq).
  destruct (reported_5bit (Z.land z 31) (land_31_range z)) as [fr Hfr].
  pose proof (wf_length s Hwf) as Hlen.
  assert (Hi : py_index (length (slots s)) x = Ok (Z.to_nat x))
    by (apply py_index_valid; lia).
  exists f, z, fr. eexists. repeat split; try eassumption.
  - eapply set_pixel_run; eauto.
  - rewrite get_pixel_spec. cbn [slots heap]. rewrite length_insert, Hi.
    rewrite set_pixel_at_same by lia. cbn [red green blue brightness].
    now rewrite Hfr.
Qed.

Lemma set_pixel_then_get_pixel_witness :
  exists (f : float) (z : Z) (fr : float) (s' : buffer),
    py_to_float (PyFloat f_0_25) = Ok f
    /\ py_int (PyFloat (fmul f31 f)) = Ok z
    /\ reported (Z.land z 31) = Ok fr
    /\ set_pixel 3 (PyInt 300) (PyInt (-1)) (PyFloat f_0_25)
                 (Some (PyFloat f_0_25)) initial_pixels = (Ok tt, s')
    /\ get_pixel 3 s' =
       (Ok (Z.land 300 255, Z.land (-1) 255, Z.land 0 255, fr), s').
Proof.
  apply (set_pixel_then_get_pixel initial_pixels 3 (PyInt 300) (PyInt (-1))
           (PyFloat f_0_25) (PyFloat f_0_25) 300 (-1) 0);
    first [reflexivity | unfold NUM_PIXELS; lia].
Defined.

(** C1 as stated fails: with brightness 0.25 the product is 7.75, which the
    code truncates to 7 where [round] gives 8, so [get_pixel] reports 0.226
    and not 0.258. *)
Lemma set_pixel_truncates_brightness :
  in_unit_interval (PyFloat f_0_25) = true
  /\ fst ((set_pixel 0 (PyInt 10) (PyInt 20) (PyInt 30) (Some (PyFloat f_0_25)) ;;;
           get_pixel 0) initial_pixels)
     = Ok (10, 20, 30, f_0_226)
  /\ quantize (PyFloat f_0_25) = Ok 7
  /\ quantize_spec (PyFloat f_0_25) = Ok 8
  /\ reported 8 = Ok f_0_258
  /\ float_eqb f_0_226 f_0_258 = false.
Proof. vm_compute. repeat split. Qed.

(** C2, as amended.  In a well-formed buffer, [set_pixel] with an index
    [x >= N] or [x < -N] never returns: it raises, [IndexError] whenever
    the colour and brightness arguments convert, and leaves the buffer as
    it was.  An index in [-N, -1] is accepted when the arguments convert,
    and names position [N + x]. *)
Theorem set_pixel_index_range (s : buffer) (x : Z) (r g b : pynum)
        (br : option pynum) :
  wf s ->
  (x < - Z.of_nat NUM_PIXELS \/ Z.of_nat NUM_PIXELS <= x ->
   exists e, set_pixel x r g b br s = (Raise e, s)
             /\ (converts r g b br = true -> e = IndexError))
  /\ (- Z.of_nat NUM_PIXELS <= x < 0 -> converts r g b br = true ->
      exists zr zg zb q s',
        py_int r = Ok zr /\ py_int g = Ok zg /\ py_int b = Ok zb
        /\ set_pixel x r g b br s = (Ok tt, s')
        /\ pixel_at s' (Z.to_nat (Z.of_nat NUM_PIXELS + x))
           = Some (Pixel (Z.land zr 255) (Z.land zg 255) (Z.land zb 255) q)).
Proof.
  intros Hwf. pose proof (wf_length s Hwf) as Hlen. split.
  - intros Hx.
    assert (Hi : py_index (length (slots s)) x = Raise IndexError)
      by (apply py_index_out; lia).
    unfold set_pixel, converts, bind, lift, rebind, slot_ref.
    destruct br as [v |].
    + destruct (quantize v) as [q | e]; cbn [is_ok];
        [| exists e; split; [reflexivity | rewrite andb_false_r; discriminate]].
      destruct (py_int r) as [zr | e]; cbn [is_ok andb];
        [| exists e; split; [reflexivity | discriminate]].
      destruct (py_int g) as [zg | e]; cbn [is_ok andb];
        [| exists e; split; [reflexivity | discriminate]].
      destruct (py_int b) as [zb | e]; cbn [is_ok andb];
        [| exists e; split; [reflexivity | discriminate]].
      rewrite Hi. exists IndexError. split; reflexivity.
    + rewrite Hi. exists IndexError. split; reflexivity.
  - intros Hx Hconv.
    assert (Hi : py_index (length (slots s)) x
                 = Ok (Z.to_nat (Z.of_nat NUM_PIXELS + x)))
      by (rewrite Hlen; now apply py_index_negative).
    unfold converts in Hconv.
    destruct (py_int r) as [zr |] eqn:Hr; [| discriminate].
    destruct (py_int g) as [zg |] eqn:Hg; [| discriminate].
    destruct (py_int b) as [zb |] eqn:Hb; [| discriminate].
    cbn [is_ok andb] in Hconv.
    assert (Hq : exists q,
      match br with
      | None => exists p, pixel_at s (Z.to_nat (Z.of_nat NUM_PIXELS + x)) = Some p
                          /\ brightness p = q
      | Some v => quantize v = Ok q
      end).
    { destruct br as [v |].
      - destruct (quantize v) as [q |]; [eauto | discriminate].
      - destruct (wf_pixel_at s (Z.to_nat (Z.of_nat NUM_PIXELS + x)) Hwf
                    ltac:(lia)) as (l & p & _ & _ & Hp).
        exists (brightness p), p. auto. }
    destruct Hq as [q Hq].
    exists zr, zg, zb, q. eexists. repeat split.
    + eapply set_pixel_run; eauto.
    + apply set_pixel_at_same. lia.
Qed.

Lemma set_pixel_index_range_witness :
  (exists e, set_pixel 8 (PyInt 1) (PyInt 2) (PyInt 3) None initial_pixels
             = (Raise e, initial_pixels)
             /\ e = IndexError)
  /\ (exists zr zg zb q s',
        py_int (PyInt 1) = Ok zr /\ py_int (PyInt 2) = Ok zg
        /\ py_int (PyInt 3) = Ok zb
        /\ set_pixel (-8) (PyInt 1) (PyInt 2) (PyInt 3) None initial_pixels
           = (Ok tt, s')
        /\ pixel_at s' (Z.to_nat (Z.of_nat NUM_PIXELS + -8))
           = Some (Pixel (Z.land zr 255) (Z.land zg 255) (Z.land zb 255) q)).
Proof.
  split.
  - destruct (set_pixel_index_range initial_pixels 8 (PyInt 1) (PyInt 2)
                (PyInt 3) None eq_refl) as [Hout _].
    destruct (Hout ltac:(unfold NUM_PIXELS; lia)) as (e & Hrun & He).
    exists e. split; [exact Hrun | apply He; reflexivity].
  - destruct (set_pixel_index_range initial_pixels (-8) (PyInt 1) (PyInt 2)
                (PyInt 3) None eq_refl) as [_ Hneg].
    apply Hneg; [unfold NUM_PIXELS; lia | reflexivity].
Defined.

(** C2 as stated fails on a negative index: [set_pixel(-1, 1, 2, 3)]
    returns and changes what [get_pixel(7)] observes. *)
Lemma set_pixel_accepts_negative_index :
  set_pixel (-1) (PyInt 1) (PyInt 2) (PyInt 3) None initial_pixels
  = (Ok tt, {| slots := [0; 0; 0; 0; 0; 0; 0; 1]%nat;
               heap := [Pixel 0 0 0 7; Pixel 1 2 3 7] |})
  /\ fst (get_pixel 7 initial_pixels) = Ok (0, 0, 0, f_0_226)
  /\ fst ((set_pixel (-1) (PyInt 1) (PyInt 2) (PyInt 3) None ;;;
           get_pixel 7) initial_pixels)
     = Ok (1, 2, 3, f_0_226).
Proof. vm_compute. repeat split. Qed.

(** C3, as amended.  [set_brightness(b)] raises [ValueError] and leaves
    the buffer as it was when [b < 0] or [b > 1]; for [b] in [0.0, 1.0]
    it returns, and every pixel then has its old channels and, as its
    brightness, [int(31.0 * b)], the product truncated toward zero,
    masked to 5 bits. *)
Theorem set_brightness_checks_range (s : buffer) (b : pynum) :
  wf s ->
  (outside_unit_interval b = true ->
   set_brightness b s = (Raise ValueError, s))
  /\ (in_unit_interval b = true ->
      exists (f : float) (z : Z) (s' : buffer),
        py_to_float b = Ok f
        /\ py_int (PyFloat (fmul f31 f)) = Ok z
        /\ set_brightness b s = (Ok tt, s')
        /\ wf s'
        /\ forall i, (i < NUM_PIXELS)%nat ->
             exists p, pixel_at s i = Some p
                       /\ pixel_at s' i
                          = Some (Pixel (red p) (green p) (blue p)
                                        (Z.land z 31))).
Proof.
  intros Hwf. split.
  - intros Hout. unfold set_brightness.
    change (py_lt_lit b 0 f0 || py_gt_lit b 1 f1)
      with (outside_unit_interval b).
    now rewrite Hout.
  - intros Hin.
    destruct (quantize_total b Hin) as (f & z & Hf & Hz & Hq).
    set (upd := fun p => Pixel (red p) (green p) (blue p) (Z.land z 31)).
    destruct (update_all upd s ltac:(reflexivity) Hwf)
      as (s' & Hrun & Hwf' & _ & Hat).
    exists f, z, s'. split; [exact Hf |]. split; [exact Hz |].
    split; [| split; [exact Hwf' |]].
    + unfold set_brightness.
      change (py_lt_lit b 0 f0 || py_gt_lit b 1 f1)
        with (outside_unit_interval b).
      rewrite (in_unit_not_outside b Hin). unfold for_range in *.
      rewrite <- Hrun. apply for_from_ext. intros x t.
      unfold bind at 1, lift. now rewrite Hq.
    + intros i Hi.
      destruct (wf_pixel_at s i Hwf Hi) as (l & p & _ & _ & Hp).
      exists p. split; [exact Hp |]. rewrite (Hat i Hi), Hp. reflexivity.
Qed.

Lemma set_brightness_checks_range_witness :
  set_brightness (PyFloat (S754_finite false 4503599627370496 (-51)))
                 initial_pixels
  = (Raise ValueError, initial_pixels)
  /\ exists (f : float) (z : Z) (s' : buffer),
       py_to_float (PyFloat f_0_25) = Ok f
       /\ py_int (PyFloat (fmul f31 f)) = Ok z
       /\ set_brightness (PyFloat f_0_25) initial_pixels = (Ok tt, s')
       /\ wf s'
       /\ forall i, (i < NUM_PIXELS)%nat ->
            exists p, pixel_at initial_pixels i = Some p
                      /\ pixel_at s' i
                         = Some (Pixel (red p) (green p) (blue p)
                                       (Z.land z 31)).
Proof.
  split.
  - apply (set_brightness_checks_range initial_pixels
             (PyFloat (S754_finite false 4503599627370496 (-51))) eq_refl).
    reflexivity.
  - apply (set_brightness_checks_range initial_pixels (PyFloat f_0_25) eq_refl).
    reflexivity.
Defined.

(** C3 as stated fails where the quantised value is the rounded one: with
    0.25 the product is 7.75, [round] gives 8, and [set_brightness]
    stores 7 on every pixel. *)
Lemma set_brightness_truncates :
  in_unit_interval (PyFloat f_0_25) = true
  /\ set_brightness (PyFloat f_0_25) initial_pixels
     = (Ok tt, {| slots := [0; 0; 0; 0; 0; 0; 0; 0]%nat;
                  heap := [Pixel 0 0 0 7] |})
  /\ pixel_at (snd (set_brightness (PyFloat f_0_25) initial_pixels)) 0
     = Some (Pixel 0 0 0 7)
  /\ quantize_spec (PyFloat f_0_25) = Ok 8
  /\ Z.eqb 7 8 = false.
Proof. vm_compute. repeat split. Qed.

(** C4.  [clear()] on a well-formed buffer returns, and every pixel then
    has its three channels at zero and the brightness it had. *)
Theorem clear_zeroes_channels (s : buffer) :
  wf s ->
  exists s',
    clear s = (Ok tt, s')
    /\ wf s'
    /\ forall i, (i < NUM_PIXELS)%nat ->
         exists p, pixel_at s i = Some p
                   /\ pixel_at s' i = Some (Pixel 0 0 0 (brightness p)).
Proof.
  intros Hwf.
  destruct (update_all (fun p => Pixel 0 0 0 (brightness p)) s
              ltac:(reflexivity) Hwf) as (s' & Hrun & Hwf' & _ & Hat).
  exists s'. split; [exact Hrun |]. split; [exact Hwf' |].
  intros i Hi. destruct (wf_pixel_at s i Hwf Hi) as (l & p & _ & _ & Hp).
  exists p. split; [exact Hp |]. rewrite (Hat i Hi), Hp. reflexivity.
Qed.

Lemma clear_zeroes_channels_witness :
  exists s',
    clear (snd (set_pixel 2 (PyInt 9) (PyInt 8) (PyInt 7)
                  (Some (PyFloat f_0_25)) initial_pixels)) = (Ok tt, s')
    /\ wf s'
    /\ forall i, (i < NUM_PIXELS)%nat ->
         exists p,
           pixel_at (snd (set_pixel 2 (PyInt 9) (PyInt 8) (PyInt 7)
                            (Some (PyFloat f_0_25)) initial_pixels)) i = Some p
           /\ pixel_at s' i = Some (Pixel 0 0 0 (brightness p)).
Proof.
  apply (clear_zeroes_channels
           (snd (set_pixel 2 (PyInt 9) (PyInt 8) (PyInt 7)
                   (Some (PyFloat f_0_25)) initial_pixels))).
  reflexivity.
Defined.

(** C5.  With the brightness argument omitted, [set_pixel] at a valid
    index returns, stores the three channels masked to 8 bits, and keeps
    the brightness the pixel had. *)
Theorem set_pixel_keeps_brightness (s : buffer) (x : Z) (r g b : pynum)
        (zr zg zb : Z) :
  wf s ->
  0 <= x < Z.of_nat NUM_PIXELS ->
  py_int r = Ok zr -> py_int g = Ok zg -> py_int b = Ok zb ->
  exists p s',
    pixel_at s (Z.to_nat x) = Some p
    /\ set_pixel x r g b None s = (Ok tt, s')
    /\ wf s'
    /\ pixel_at s' (Z.to_nat x)
       = Some (Pixel (Z.land zr 255) (Z.land zg 255) (Z.land zb 255)
                     (brightness p)).
Proof.
  intros Hwf Hx Hr Hg Hb. pose proof (wf_length s Hwf) as Hlen.
  destruct (wf_pixel_at s (Z.to_nat x) Hwf ltac:(lia)) as (l & p & _ & _ & Hp).
  exists p. eexists. split; [exact Hp |]. split; [| split].
  - eapply set_pixel_run;
      [apply py_index_valid; lia | eassumption | eassumption | eassumption
      | exists p; split; [exact Hp | reflexivity]].
  - now apply set_pixel_wf.
  - apply set_pixel_at_same. lia.
Qed.

Lemma set_pixel_keeps_brightness_witness :
  exists p s',
    pixel_at initial_pixels (Z.to_nat 5) = Some p
    /\ set_pixel 5 (PyInt 256) (PyFloat f_0_25) (PyInt 77) None initial_pixels
       = (Ok tt, s')
    /\ wf s'
    /\ pixel_at s' (Z.to_nat 5)
       = Some (Pixel (Z.land 256 255) (Z.land 0 255) (Z.land 77 255)
                     (brightness p)).
Proof.
  apply (set_pixel_keeps_brightness initial_pixels 5 (PyInt 256)
           (PyFloat f_0_25) (PyInt 77) 256 0 77);
    first [reflexivity | unfold NUM_PIXELS; lia].
Defined.

(** C10.  In a well-formed buffer, whatever [set_pixel] does at a valid
    index [x], [get_pixel] at another valid index [y] returns afterwards
    what it returned before, however the positions share list objects:
    the position is rebound to a new object, none is updated in place. *)
Theorem set_pixel_leaves_other_pixels (s : buffer) (x y : Z) (r g b : pynum)
        (br : option pynum) :
  wf s ->
  0 <= x < Z.of_nat NUM_PIXELS ->
  0 <= y < Z.of_nat NUM_PIXELS ->
  x <> y ->
  fst (get_pixel y (snd (set_pixel x r g b br s))) = fst (get_pixel y s).
Proof.
  intros Hwf Hx Hy Hne. pose proof (wf_length s Hwf) as Hlen.
  destruct (set_pixel x r g b br s) as [res s'] eqn:Hrun. cbn [snd].
  destruct (set_pixel_cases s s' x r g b br res Hrun)
    as [-> | (i & p & Hi & _ & ->)]; [reflexivity |].
  rewrite (py_index_valid _ x) in Hi by lia. injection Hi as <-.
  rewrite !get_pixel_spec. cbn [slots heap]. rewrite length_insert.
  rewrite (py_index_valid _ y) by lia.
  rewrite set_pixel_at_other by (try assumption; lia).
  destruct (pixel_at s (Z.to_nat y)) as [q |]; [| reflexivity].
  destruct (reported (brightness q)); reflexivity.
Qed.

Lemma set_pixel_leaves_other_pixels_witness :
  fst (get_pixel 1 (snd (set_pixel 0 (PyInt 255) (PyInt 0) (PyInt 0)
                           (Some (PyInt 1)) initial_pixels)))
  = fst (get_pixel 1 initial_pixels).
Proof.
  apply (set_pixel_leaves_other_pixels initial_pixels 0 1);
    first [reflexivity | unfold NUM_PIXELS; lia].
Defined.

(** ** Properties of the driver *)

Section DriverFacts.

Variable respond : list call -> call -> result Z.
Variable chip_labels : list (Z * string).

Lemma logs_nil (s : driver) : logs [] s = s.
Proof. destruct s. unfold logs. cbn. now rewrite app_nil_r. Qed.

Lemma logs_logs (a b : list call) (s : driver) :
  logs b (logs a s) = logs (a ++ b) s.
Proof. unfold logs. cbn. now rewrite app_assoc. Qed.

Lemma gpio_write_run (s : driver) (gpio level : Z) :
  writes_ok respond ->
  gpio_write respond gpio level s
  = (Ok tt, logs [GpioWrite (_handle s) gpio level] s).
Proof.
  intros Hw. unfold gpio_write, bind, get, lgpio_call, ret.
  destruct (Hw (trace s) (_handle s) gpio level) as [v ->]. reflexivity.
Qed.

Lemma time_sleep_run (s : driver) :
  time_sleep s = (Ok tt, logs [TimeSleep HALF_CYCLE_NS] s).
Proof. reflexivity. Qed.

Lemma clock_pulse_run (s : driver) :
  writes_ok respond ->
  clock_pulse respond s = (Ok tt, logs (pulse (_handle s)) s).
Proof.
  intros Hw. unfold clock_pulse.
  rewrite (bind_ok _ _ _ _ _ (gpio_write_run s CLK 1 Hw)).
  rewrite (bind_ok _ _ _ _ _ (time_sleep_run _)).
  rewrite (bind_ok _ _ _ _ _ (gpio_write_run _ CLK 0 Hw)).
  rewrite time_sleep_run, !logs_logs. reflexivity.
Qed.

Lemma pulses_run (n start : nat) (s : driver) :
  writes_ok respond ->
  for_from start n (fun _ => clock_pulse respond) s
  = (Ok tt, logs (pulses (_handle s) n) s).
Proof.
  intros Hw. revert start s. induction n as [| n IH]; intros start s.
  - cbn. unfold ret. now rewrite logs_nil.
  - cbn [for_from pulses].
    rewrite (bind_ok _ _ _ _ _ (clock_pulse_run s Hw)).
    rewrite IH, logs_logs. reflexivity.
Qed.

Lemma sof_run (s : driver) :
  writes_ok respond ->
  _sof respond s = (Ok tt, logs (start_frame (_handle s)) s).
Proof.
  intros Hw. unfold _sof, for_range.
  rewrite (bind_ok _ _ _ _ _ (gpio_write_run s DAT 0 Hw)).
  rewrite pulses_run by exact Hw. rewrite logs_logs. reflexivity.
Qed.

Lemma eof_run (s : driver) :
  writes_ok respond ->
  _eof respond s = (Ok tt, logs (end_frame (_handle s)) s).
Proof.
  intros Hw. unfold _eof, for_range.
  rewrite (bind_ok _ _ _ _ _ (gpio_write_run s DAT 0 Hw)).
  rewrite pulses_run by exact Hw. rewrite logs_logs. reflexivity.
Qed.

Lemma write_bits_run (n : nat) (byte : Z) (s : driver) :
  writes_ok respond ->
  write_bits respond n byte s = (Ok tt, logs (bits_frame (_handle s) n byte) s).
Proof.
  intros Hw. revert byte s. induction n as [| n IH]; intros byte s.
  - cbn. unfold ret. now rewrite logs_nil.
  - cbn [write_bits bits_frame].
    rewrite (bind_ok _ _ _ _ _ (gpio_write_run s DAT _ Hw)).
    rewrite (bind_ok _ _ _ _ _ (gpio_write_run _ CLK 1 Hw)).
    rewrite (bind_ok _ _ _ _ _ (time_sleep_run _)).
    rewrite (bind_ok _ _ _ _ _ (gpio_write_run _ CLK 0 Hw)).
    rewrite (bind_ok _ _ _ _ _ (time_sleep_run _)).
    rewrite IH, !logs_logs. reflexivity.
Qed.

Lemma land_128 (x : Z) :
  (if Z.eqb (Z.land x 128) 0 then 0 else 1) = bit_of x 7.
Proof.
  unfold bit_of. destruct (Z.testbit x 7) eqn:Hb.
  - destruct (Z.eqb_spec (Z.land x 128) 0) as [Hz | _]; [| reflexivity].
    apply (f_equal (fun y => Z.testbit y 7)) in Hz.
    rewrite Z.land_spec, Hb in Hz. discriminate.
  - destruct (Z.eqb_spec (Z.land x 128) 0) as [_ | Hnz]; [reflexivity |].
    exfalso. apply Hnz. apply Z.bits_inj'. intros n Hn.
    rewrite Z.land_spec, Z.bits_0. change 128 with (2 ^ 7).
    rewrite Z.pow2_bits_eqb by lia.
    destruct (Z.eqb_spec 7 n) as [<- | _].
    + now rewrite Hb.
    + apply andb_false_r.
Qed.

Lemma bit_of_shiftl (x k : Z) :
  1 <= k -> bit_of (Z.shiftl x 1) k = bit_of x (k - 1).
Proof. intros Hk. unfold bit_of. now rewrite Z.shiftl_spec by lia. Qed.

(** The loop of [_write_byte] sends bits 7 down to 0 of the byte. *)
Lemma bits_frame_msb_first (h : option Z) (byte : Z) :
  bits_frame h 8 byte = byte_frame h byte.
Proof.
  unfold byte_frame. cbn [bits_frame flat_map].
  rewrite !land_128. repeat rewrite bit_of_shiftl by lia.
  rewrite !app_nil_r. reflexivity.
Qed.

Lemma write_byte_run (byte : Z) (s : driver) :
  writes_ok respond ->
  _write_byte respond byte s = (Ok tt, logs (byte_frame (_handle s) byte) s).
Proof.
  intros Hw. unfold _write_byte.
  rewrite write_bits_run by exact Hw. now rewrite bits_frame_msb_first.
Qed.

Lemma on_pixels_deref (s : driver) (l : loc) (p : pixel) :
  heap (pixels s) !! l = Some p ->
  on_pixels (deref l) s = (Ok p, s).
Proof.
  intros Hp. unfold on_pixels, deref. rewrite Hp. now destruct s.
Qed.

Lemma show_pixel_run (s : driver) (l : loc) (p : pixel) :
  writes_ok respond ->
  heap (pixels s) !! l = Some p ->
  show_pixel respond l s = (Ok tt, logs (pixel_frame (_handle s) p) s).
Proof.
  intros Hw Hp. unfold show_pixel, pixel_frame.
  rewrite (bind_ok _ _ _ _ _ (on_pixels_deref s l p Hp)).
  rewrite (bind_ok _ _ _ _ _ (write_byte_run _ s Hw)).
  rewrite (bind_ok _ _ _ _ _ (write_byte_run _ _ Hw)).
  rewrite (bind_ok _ _ _ _ _ (write_byte_run _ _ Hw)).
  rewrite write_byte_run by exact Hw. rewrite !logs_logs.
  cbn [_handle logs]. repeat rewrite <- app_assoc. reflexivity.
Qed.

Lemma show_pixels_run (ls : list loc) (s : driver) :
  writes_ok respond ->
  Forall (fun l => (l < length (heap (pixels s)))%nat) ls ->
  for_each ls (show_pixel respond) s
  = (Ok tt,
     logs (flat_map (pixel_frame (_handle s))
             (deref_all (heap (pixels s)) ls)) s).
Proof.
  intros Hw. revert s. induction ls as [| l ls IH]; intros s Hall.
  - cbn. unfold ret. now rewrite logs_nil.
  - apply Forall_cons in Hall as [Hl Hall].
    destruct (lookup_lt_is_Some_2 _ _ Hl) as [p Hp].
    cbn [for_each deref_all]. rewrite Hp. cbn [flat_map].
    rewrite (bind_ok _ _ _ _ _ (show_pixel_run s l p Hw Hp)).
    rewrite IH by exact Hall. rewrite logs_logs. reflexivity.
Qed.

Lemma pixel_list_length (b : buffer) :
  wf b -> length (pixel_list b) = NUM_PIXELS.
Proof.
  intros Hwf. rewrite <- (wf_length b Hwf). unfold pixel_list.
  pose proof (wf_heap b Hwf) as Hall.
  induction Hall as [| l ls Hl _ IH]; [reflexivity |].
  destruct (lookup_lt_is_Some_2 _ _ Hl) as [p Hp].
  cbn [deref_all]. rewrite Hp. cbn [length]. now rewrite IH.
Qed.

Lemma transmit_run (s : driver) :
  writes_ok respond ->
  wf (pixels s) ->
  transmit respond s
  = (Ok tt, logs (transmission (_handle s) (pixel_list (pixels s))) s).
Proof.
  intros Hw Hwf. unfold transmit, transmission.
  rewrite (bind_ok _ _ _ _ _ (sof_run s Hw)).
  erewrite bind_ok.
  2: { unfold bind, get. apply show_pixels_run; [exact Hw |].
       apply (wf_heap _ Hwf). }
  rewrite eof_run by exact Hw. rewrite !logs_logs.
  cbn [_handle pixels logs]. unfold pixel_list.
  repeat rewrite <- app_assoc. reflexivity.
Qed.

End DriverFacts.

Section WireFacts.

Lemma count_pulses_pulse (h : option Z) (rest : list call) :
  count_pulses (pulse h ++ rest) = Datatypes.S (count_pulses rest).
Proof. reflexivity. Qed.

Lemma count_pulses_dat (h : option Z) (level : Z) (rest : list call) :
  count_pulses (GpioWrite h DAT level :: rest) = count_pulses rest.
Proof. reflexivity. Qed.

Lemma count_pulses_pulses (h : option Z) (n : nat) (rest : list call) :
  count_pulses (pulses h n ++ rest) = (n + count_pulses rest)%nat.
Proof.
  induction n as [| n IH]; [reflexivity |].
  cbn [pulses]. rewrite <- app_assoc, count_pulses_pulse, IH. reflexivity.
Qed.

Lemma count_pulses_bit (h : option Z) (level : Z) (rest : list call) :
  count_pulses (bit_frame h level ++ rest) = Datatypes.S (count_pulses rest).
Proof. reflexivity. Qed.

Lemma count_pulses_byte (h : option Z) (byte : Z) (rest : list call) :
  count_pulses (byte_frame h byte ++ rest) = (8 + count_pulses rest)%nat.
Proof.
  unfold byte_frame. cbn [flat_map]. rewrite app_nil_r.
  repeat rewrite <- app_assoc. now rewrite !count_pulses_bit.
Qed.

Lemma count_pulses_pixel (h : option Z) (p : pixel) (rest : list call) :
  count_pulses (pixel_frame h p ++ rest) = (32 + count_pulses rest)%nat.
Proof.
  unfold pixel_frame. repeat rewrite <- app_assoc.
  now rewrite !count_pulses_byte.
Qed.

Lemma count_pulses_pixels (h : option Z) (ps : list pixel) (rest : list call) :
  count_pulses (flat_map (pixel_frame h) ps ++ rest)
  = (length ps * 32 + count_pulses rest)%nat.
Proof.
  induction ps as [| p ps IH]; [reflexivity |].
  cbn [flat_map length]. rewrite <- app_assoc, count_pulses_pixel, IH. lia.
Qed.

(** A transmission of [n] pixels carries [32 + n * 32 + 36] clock pulses. *)
Lemma count_pulses_transmission (h : option Z) (ps : list pixel) :
  count_pulses (transmission h ps) = (32 + length ps * 32 + 36)%nat.
Proof.
  unfold transmission, start_frame, end_frame.
  rewrite <- app_comm_cons, count_pulses_dat, count_pulses_pulses.
  rewrite count_pulses_pixels, count_pulses_dat.
  rewrite <- (app_nil_r (pulses h 36)), count_pulses_pulses. cbn. lia.
Qed.

Lemma sample_bit (h : option Z) (dat level : Z) (rest : list call) :
  sample dat (bit_frame h level ++ rest) = level :: sample level rest.
Proof. reflexivity. Qed.

Lemma sample_byte (h : option Z) (dat byte : Z) (rest : list call) :
  sample dat (byte_frame h byte ++ rest)
  = [bit_of byte 7; bit_of byte 6; bit_of byte 5; bit_of byte 4;
     bit_of byte 3; bit_of byte 2; bit_of byte 1; bit_of byte 0]
    ++ sample (bit_of byte 0) rest.
Proof.
  unfold byte_frame. cbn [flat_map]. rewrite app_nil_r.
  repeat rewrite <- app_assoc. now rewrite !sample_bit.
Qed.

Lemma bit_of_mod_256 (x k : Z) :
  k < 8 -> bit_of x k = bit_of (x mod 256) k.
Proof.
  intros Hk. unfold bit_of. change 256 with (2 ^ 8).
  now rewrite Z.mod_pow2_bits_low by lia.
Qed.

(** Eight bits read most significant first give back the byte. *)
Lemma byte_of_bits (x : Z) :
  128 * bit_of x 7 + 64 * bit_of x 6 + 32 * bit_of x 5 + 16 * bit_of x 4
  + 8 * bit_of x 3 + 4 * bit_of x 2 + 2 * bit_of x 1 + bit_of x 0
  = x mod 256.
Proof.
  rewrite (bit_of_mod_256 x 7), (bit_of_mod_256 x 6), (bit_of_mod_256 x 5),
    (bit_of_mod_256 x 4), (bit_of_mod_256 x 3), (bit_of_mod_256 x 2),
    (bit_of_mod_256 x 1), (bit_of_mod_256 x 0) by lia.
  pose proof (Z.mod_pos_bound x 256 ltac:(lia)) as Hy.
  set (y := x mod 256) in *.
  assert (Hn : exists n, (n < 256)%nat /\ y = Z.of_nat n)
    by (exists (Z.to_nat y); lia).
  destruct Hn as (n & Hn & ->).
  do 256 (destruct n as [| n]; [reflexivity |]). lia.
Qed.


Lemma lor_224 (q : Z) : 0 <= q < 32 -> Z.lor 224 q = 224 + q.
Proof.
  intros Hq.
  assert (Hn : exists n, (n < 32)%nat /\ q = Z.of_nat n)
    by (exists (Z.to_nat q); lia).
  destruct Hn as (n & Hn & ->).
  do 32 (destruct n as [| n]; [reflexivity |]). lia.
Qed.







End WireFacts.

Section SetupFacts.

Variable respond : list call -> call -> result Z.
Variable chip_labels : list (Z * string).

Lemma gpio_claim_output_run (s : driver) (gpio : Z) :
  gpio_claim_output respond gpio s
  = (match respond (trace s) (GpioClaimOutput (_handle s) gpio) with
     | Ok _ => Ok tt
     | Raise e => Raise e
     end, logs [GpioClaimOutput (_handle s) gpio] s).
Proof.
  unfold gpio_claim_output, bind, get, lgpio_call, ret.
  now destruct (respond (trace s) (GpioClaimOutput (_handle s) gpio)).
Qed.

Lemma gpio_free_run (s : driver) (gpio : Z) :
  gpio_free respond gpio s
  = (match respond (trace s) (GpioFree (_handle s) gpio) with
     | Ok _ => Ok tt
     | Raise e => Raise e
     end, logs [GpioFree (_handle s) gpio] s).
Proof.
  unfold gpio_free, bind, get, lgpio_call, ret.
  now destruct (respond (trace s) (GpioFree (_handle s) gpio)).
Qed.

(** Every way [claim_or_reclaim] can go, by what the device answers. *)
Lemma claim_or_reclaim_run (s : driver) (gpio : Z) :
  claim_or_reclaim respond gpio s
  = match respond (trace s) (GpioClaimOutput (_handle s) gpio) with
    | Ok _ => (Ok tt, logs [GpioClaimOutput (_handle s) gpio] s)
    | Raise LgpioError =>
        match respond (trace s ++ [GpioClaimOutput (_handle s) gpio])
                (GpioFree (_handle s) gpio) with
        | Ok _ =>
            (match respond (trace s ++ [GpioClaimOutput (_handle s) gpio;
                                        GpioFree (_handle s) gpio])
                     (GpioClaimOutput (_handle s) gpio) with
             | Ok _ => Ok tt
             | Raise e => Raise e
             end,
             logs [GpioClaimOutput (_handle s) gpio;
                   GpioFree (_handle s) gpio;
                   GpioClaimOutput (_handle s) gpio] s)
        | Raise e =>
            (Raise e, logs [GpioClaimOutput (_handle s) gpio;
                            GpioFree (_handle s) gpio] s)
        end
    | Raise e => (Raise e, logs [GpioClaimOutput (_handle s) gpio] s)
    end.
Proof.
  unfold claim_or_reclaim, try_except. rewrite gpio_claim_output_run.
  destruct (respond (trace s) (GpioClaimOutput (_handle s) gpio))
    as [v | []]; try reflexivity.
  unfold bind. rewrite gpio_free_run. cbn [trace logs _handle].
  destruct (respond (trace s ++ [GpioClaimOutput (_handle s) gpio])
              (GpioFree (_handle s) gpio)) as [v | e].
  - rewrite gpio_claim_output_run, !logs_logs. cbn [trace logs _handle].
    repeat rewrite <- app_assoc. reflexivity.
  - now rewrite logs_logs.
Qed.

Lemma claim_or_reclaim_inv (s s' : driver) (gpio : Z) :
  claim_or_reclaim respond gpio s = (Ok tt, s') ->
  exists tr, claim_calls (_handle s) gpio tr = true /\ s' = logs tr s.
Proof.
  rewrite claim_or_reclaim_run. intros H.
  assert (Hd : forall h : option Z, bool_decide (h = h) = true)
    by (intros; now apply bool_decide_eq_true_2).
  destruct (respond (trace s) (GpioClaimOutput (_handle s) gpio))
    as [v | []]; try discriminate.
  - injection H as <-. eexists. split; [| reflexivity].
    cbn. now rewrite Hd, Z.eqb_refl.
  - destruct (respond (trace s ++ [GpioClaimOutput (_handle s) gpio])
                (GpioFree (_handle s) gpio)) as [v | e]; [| discriminate].
    destruct (respond (trace s ++ [GpioClaimOutput (_handle s) gpio;
                                   GpioFree (_handle s) gpio])
                (GpioClaimOutput (_handle s) gpio)) as [w | e];
      [| discriminate].
    injection H as <-. eexists. split; [| reflexivity].
    cbn. now rewrite !Hd, !Z.eqb_refl.
Qed.

Lemma open_chip_run (s : driver) :
  open_chip respond chip_labels s
  = match respond (trace s ++ [ScanChipLabels])
            (GpiochipOpen (find_rp1 chip_labels)) with
    | Ok h =>
        (Ok tt,
         with_handle (Some h)
           (logs [ScanChipLabels; GpiochipOpen (find_rp1 chip_labels)] s))
    | Raise e =>
        (Raise e,
         logs [ScanChipLabels; GpiochipOpen (find_rp1 chip_labels)] s)
    end.
Proof.
  unfold open_chip, _find_rp1_chip, bind, emit, ret, lgpio_call, set_handle.
  cbn [trace log].
  destruct (respond (trace s ++ [ScanChipLabels])
              (GpiochipOpen (find_rp1 chip_labels)));
    unfold log, logs, with_handle; cbn; now rewrite <- app_assoc.
Qed.

Lemma show_ready (s : driver) :
  _gpio_setup s = true ->
  show respond chip_labels s = transmit respond s.
Proof. intros H. unfold show, bind, get, ret. now rewrite H. Qed.

Lemma show_unready (s : driver) :
  _gpio_setup s = false ->
  show respond chip_labels s
  = (setup respond chip_labels ;;; transmit respond) s.
Proof. intros H. unfold show, bind at 1 2, get. now rewrite H. Qed.


End SetupFacts.

(** ** The claims about the driver *)

(** C6.  On a device whose pin writes do not raise, [show()] on a driver
    that is set up, with a well-formed buffer, returns, and the calls it
    makes are one transmission: the data line set low and 32 clock pulses,
    then for each pixel in buffer order four bytes of eight bits, each bit
    the data line set and one pulse, then the data line set low and 36
    pulses.  That is [32 + N * 32 + 36] pulses for the [N] pixels, each
    pulse being clock high, the half-cycle delay, clock low and the delay
    again. *)
Theorem show_clock_pulses (respond : list call -> call -> result Z)
        (chip_labels : list (Z * string)) (s : driver) :
  writes_ok respond ->
  wf (pixels s) ->
  _gpio_setup s = true ->
  show respond chip_labels s
  = (Ok tt, logs (transmission (_handle s) (pixel_list (pixels s))) s)
  /\ transmission (_handle s) (pixel_list (pixels s))
     = (GpioWrite (_handle s) DAT 0 :: pulses (_handle s) 32)
       ++ flat_map
            (fun p =>
               byte_frame (_handle s) (Z.lor 224 (brightness p))
               ++ byte_frame (_handle s) (blue p)
               ++ byte_frame (_handle s) (green p)
               ++ byte_frame (_handle s) (red p))
            (pixel_list (pixels s))
       ++ (GpioWrite (_handle s) DAT 0 :: pulses (_handle s) 36)
  /\ length (pixel_list (pixels s)) = NUM_PIXELS
  /\ count_pulses (transmission (_handle s) (pixel_list (pixels s)))
     = (32 + NUM_PIXELS * 32 + 36)%nat
  /\ forall (h : option Z) (ps : list pixel),
       count_pulses (transmission h ps) = (32 + length ps * 32 + 36)%nat.
Proof.
  intros Hw Hwf Hready. split; [| split; [| split; [| split]]].
  - rewrite show_ready by exact Hready. now apply transmit_run.
  - reflexivity.
  - now apply pixel_list_length.
  - rewrite count_pulses_transmission. now rewrite pixel_list_length.
  - apply count_pulses_transmission.
Qed.

Lemma world_ok_writes : writes_ok world_ok.
Proof. intros tr h gpio level. now exists 0. Qed.

Lemma show_clock_pulses_witness :
  show world_ok labels_pi5
       (with_gpio_setup true (with_handle (Some 0) initial_driver))
  = (Ok tt,
     logs (transmission (Some 0) (pixel_list initial_pixels))
          (with_gpio_setup true (with_handle (Some 0) initial_driver)))
  /\ transmission (Some 0) (pixel_list initial_pixels)
     = (GpioWrite (Some 0) DAT 0 :: pulses (Some 0) 32)
       ++ flat_map
            (fun p =>
               byte_frame (Some 0) (Z.lor 224 (brightness p))
               ++ byte_frame (Some 0) (blue p)
               ++ byte_frame (Some 0) (green p)
               ++ byte_frame (Some 0) (red p))
            (pixel_list initial_pixels)
       ++ (GpioWrite (Some 0) DAT 0 :: pulses (Some 0) 36)
  /\ length (pixel_list initial_pixels) = NUM_PIXELS
  /\ count_pulses (transmission (Some 0) (pixel_list initial_pixels))
     = (32 + NUM_PIXELS * 32 + 36)%nat
  /\ forall (h : option Z) (ps : list pixel),
       count_pulses (transmission h ps) = (32 + length ps * 32 + 36)%nat.
Proof.
  exact (show_clock_pulses world_ok labels_pi5
           (with_gpio_setup true (with_handle (Some 0) initial_driver))
           world_ok_writes eq_refl eq_refl).
Defined.



(** C8, as amended.  In the set-up of the first [show()], for the data
    pin and for the clock pin, when the claim raises [lgpio.error] the
    pin is force-released.  If the release returns, the claim is made once
    more and no further call follows; if that retry raises, [show()]
    raises the same error.  If the release itself raises, [show()] raises
    that error and the claim is not retried.  Either way the driver is
    left not set up, and no error is swallowed. *)
Theorem show_claim_retried_once (respond : list call -> call -> result Z)
        (chip_labels : list (Z * string)) (s s1 st : driver) (gpio : Z) :
  _gpio_setup s = false ->
  open_chip respond chip_labels s = (Ok tt, s1) ->
  (gpio = DAT /\ st = s1)
  \/ (gpio = CLK /\ claim_or_reclaim respond DAT s1 = (Ok tt, st)) ->
  respond (trace st) (GpioClaimOutput (_handle st) gpio) = Raise LgpioError ->
  match respond (trace st ++ [GpioClaimOutput (_handle st) gpio])
          (GpioFree (_handle st) gpio) with
  | Ok _ =>
      match respond (trace st ++ [GpioClaimOutput (_handle st) gpio;
                                  GpioFree (_handle st) gpio])
              (GpioClaimOutput (_handle st) gpio) with
      | Ok _ =>
          claim_or_reclaim respond gpio st
          = (Ok tt, logs [GpioClaimOutput (_handle st) gpio;
                          GpioFree (_handle st) gpio;
                          GpioClaimOutput (_handle st) gpio] st)
      | Raise e =>
          claim_or_reclaim respond gpio st
          = (Raise e, logs [GpioClaimOutput (_handle st) gpio;
                            GpioFree (_handle st) gpio;
                            GpioClaimOutput (_handle st) gpio] st)
          /\ show respond chip_labels s
             = (Raise e, logs [GpioClaimOutput (_handle st) gpio;
                               GpioFree (_handle st) gpio;
                               GpioClaimOutput (_handle st) gpio] st)
          /\ _gpio_setup (logs [GpioClaimOutput (_handle st) gpio;
                                GpioFree (_handle st) gpio;
                                GpioClaimOutput (_handle st) gpio] st) = false
      end
  | Raise e =>
      claim_or_reclaim respond gpio st
      = (Raise e, logs [GpioClaimOutput (_handle st) gpio;
                        GpioFree (_handle st) gpio] st)
      /\ show respond chip_labels s
         = (Raise e, logs [GpioClaimOutput (_handle st) gpio;
                           GpioFree (_handle st) gpio] st)
      /\ _gpio_setup (logs [GpioClaimOutput (_handle st) gpio;
                            GpioFree (_handle st) gpio] st) = false
  end.
Proof.
  intros Hs Hopen Hwhere Hfail.
  pose proof (claim_or_reclaim_run respond st gpio) as Hrun.
  rewrite Hfail in Hrun.
  assert (Hs1 : _gpio_setup s1 = false).
  { rewrite open_chip_run in Hopen.
    destruct (respond (trace s ++ [ScanChipLabels])
                (GpiochipOpen (find_rp1 chip_labels))); [| discriminate].
    injection Hopen as <-. exact Hs. }
  assert (Hst : _gpio_setup st = false).
  { destruct Hwhere as [[_ ->] | [_ Hdat]]; [exact Hs1 |].
    apply claim_or_reclaim_inv in Hdat as (tr & _ & ->). exact Hs1. }
  assert (Hshow : forall e st',
            claim_or_reclaim respond gpio st = (Raise e, st') ->
            show respond chip_labels s = (Raise e, st')).
  { intros e st' Hraise. rewrite show_unready by exact Hs. unfold setup.
    apply bind_raise. rewrite (bind_ok _ _ _ _ _ Hopen).
    destruct Hwhere as [[-> ->] | [-> Hdat]].
    - now apply bind_raise.
    - rewrite (bind_ok _ _ _ _ _ Hdat). now apply bind_raise. }
  destruct (respond (trace st ++ [GpioClaimOutput (_handle st) gpio])
              (GpioFree (_handle st) gpio)) as [v | e].
  - destruct (respond (trace st ++ [GpioClaimOutput (_handle st) gpio;
                                    GpioFree (_handle st) gpio])
                (GpioClaimOutput (_handle st) gpio)) as [w | e];
      [exact Hrun |].
    split; [exact Hrun |]. split; [now apply Hshow | exact Hst].
  - split; [exact Hrun |]. split; [now apply Hshow | exact Hst].
Qed.

Lemma show_claim_retried_once_witness :
  claim_or_reclaim world_stuck DAT
    (with_handle (Some 0)
       (logs [ScanChipLabels; GpiochipOpen 4] initial_driver))
  = (Raise LgpioError,
     logs [GpioClaimOutput (Some 0) DAT; GpioFree (Some 0) DAT;
           GpioClaimOutput (Some 0) DAT]
       (with_handle (Some 0)
          (logs [ScanChipLabels; GpiochipOpen 4] initial_driver)))
  /\ show world_stuck labels_pi5 initial_driver
     = (Raise LgpioError,
        logs [GpioClaimOutput (Some 0) DAT; GpioFree (Some 0) DAT;
              GpioClaimOutput (Some 0) DAT]
          (with_handle (Some 0)
             (logs [ScanChipLabels; GpiochipOpen 4] initial_driver)))
  /\ _gpio_setup
       (logs [GpioClaimOutput (Some 0) DAT; GpioFree (Some 0) DAT;
              GpioClaimOutput (Some 0) DAT]
          (with_handle (Some 0)
             (logs [ScanChipLabels; GpiochipOpen 4] initial_driver)))
     = false.
Proof.
  exact (show_claim_retried_once world_stuck labels_pi5 initial_driver
           (with_handle (Some 0)
              (logs [ScanChipLabels; GpiochipOpen 4] initial_driver))
           (with_handle (Some 0)
              (logs [ScanChipLabels; GpiochipOpen 4] initial_driver))
           DAT eq_refl eq_refl (or_introl (conj eq_refl eq_refl)) eq_refl).
Defined.

(** C8 as stated fails when the forced release itself raises: on a device
    where the held pin cannot be released, the first [show()] claims the
    data pin once, calls [gpio_free], and raises without a retry. *)
Lemma show_release_failure_not_retried :
  world_held (trace (logs [ScanChipLabels; GpiochipOpen 4] initial_driver))
             (GpioClaimOutput (Some 0) DAT)
  = Raise LgpioError
  /\ fst (show world_held labels_pi5 initial_driver) = Raise LgpioError
  /\ trace (snd (show world_held labels_pi5 initial_driver))
     = [ScanChipLabels; GpiochipOpen 4; GpioClaimOutput (Some 0) DAT;
        GpioFree (Some 0) DAT]
  /\ length (List.filter
               (fun c => match c with
                         | GpioClaimOutput _ _ => true
                         | _ => false
                         end)
               (trace (snd (show world_held labels_pi5 initial_driver))))
     = 1%nat.
Proof. vm_compute. repeat split. Qed.



(** What [set_pixel] stores is in range, so every pixel a transmission
    meets is: the buffer starts with in-range pixels, and [clear] and
    [set_brightness] put 0 and a masked value in. *)
Lemma stored_pixel_in_range (zr zg zb z : Z) :
  pixel_in_range (Pixel (Z.land zr 255) (Z.land zg 255) (Z.land zb 255)
                        (Z.land z 31)) = true.
Proof.
  unfold pixel_in_range. cbn [red green blue brightness].
  pose proof (land_255_range zr). pose proof (land_255_range zg).
  pose proof (land_255_range zb). pose proof (land_31_range z).
  repeat (apply andb_true_intro; split);
    first [apply Z.leb_le; lia | apply Z.ltb_lt; lia].
Qed.

(** A [show()] that raises in the set-up leaves the driver not set up, and
    the next [show()] opens the chip and claims the pins again. *)
Lemma failed_setup_is_repeated :
  fst (show world_stuck labels_pi5 initial_driver) = Raise LgpioError
  /\ _gpio_setup (snd (show world_stuck labels_pi5 initial_driver)) = false
  /\ trace (snd (show world_stuck labels_pi5
                   (snd (show world_stuck labels_pi5 initial_driver))))
     = [ScanChipLabels; GpiochipOpen 4; GpioClaimOutput (Some 0) DAT;
        GpioFree (Some 0) DAT; GpioClaimOutput (Some 0) DAT;
        ScanChipLabels; GpiochipOpen 4; GpioClaimOutput (Some 0) DAT;
        GpioFree (Some 0) DAT; GpioClaimOutput (Some 0) DAT].
Proof. vm_compute. repeat split. Qed.

(** ** Further properties of the pixel buffer *)

Section PixelwiseFacts.

Lemma quantized_converts (r g b : pynum) (br : option pynum)
      (zr zg zb : Z) (qo : option Z) :
  py_int r = Ok zr -> py_int g = Ok zg -> py_int b = Ok zb ->
  quantized br = Ok qo ->
  converts r g b br = true.
Proof.
  intros Hr Hg Hb Hq. unfold converts. rewrite Hr, Hg, Hb. cbn.
  destruct br as [v |]; [| reflexivity]. cbn in Hq.
  now destruct (quantize v).
Qed.

(** One [set_pixel] at a valid index: it returns, the position holds the
    new pixel and every other position observes what it did. *)
Lemma set_pixel_effect (s : buffer) (i : nat) (r g b : pynum)
      (br : option pynum) (zr zg zb : Z) (qo : option Z) :
  wf s -> (i < NUM_PIXELS)%nat ->
  py_int r = Ok zr -> py_int g = Ok zg -> py_int b = Ok zb ->
  quantized br = Ok qo ->
  exists s',
    set_pixel (Z.of_nat i) r g b br s = (Ok tt, s')
    /\ wf s'
    /\ forall j,
         pixel_at s' j =
         if decide (j = i)
         then (fun p => Pixel (Z.land zr 255) (Z.land zg 255) (Z.land zb 255)
                              (new_brightness qo p)) <$> pixel_at s j
         else pixel_at s j.
Proof.
  intros Hwf Hi Hr Hg Hb Hq. pose proof (wf_length s Hwf) as Hlen.
  destruct (wf_pixel_at s i Hwf Hi) as (l & p & _ & _ & Hp).
  assert (Hidx : py_index (length (slots s)) (Z.of_nat i) = Ok i)
    by (apply py_index_nat; lia).
  eexists. split; [| split].
  - eapply (set_pixel_run s (Z.of_nat i) i r g b br zr zg zb
              (new_brightness qo p)); try eassumption.
    destruct br as [v |]; cbn in Hq.
    + destruct (quantize v); [| discriminate]. now injection Hq as <-.
    + injection Hq as <-. exists p. auto.
  - now apply set_pixel_wf.
  - intros j. case_decide as Hj.
    + subst j. rewrite set_pixel_at_same by lia. now rewrite Hp.
    + apply set_pixel_at_other; [exact Hwf | congruence].
Qed.

(** A loop whose body rewrites the pixel at the loop index and no other
    rewrites the pixels of the range it runs over. *)
Lemma for_from_pixelwise (body : nat -> M buffer unit)
      (P : nat -> pixel -> pixel) :
  (forall x s, wf s -> (x < NUM_PIXELS)%nat ->
     exists s', body x s = (Ok tt, s') /\ wf s'
                /\ forall j, pixel_at s' j =
                     if decide (j = x) then P x <$> pixel_at s j
                     else pixel_at s j) ->
  forall (n start : nat) (s : buffer),
    wf s -> (start + n <= NUM_PIXELS)%nat ->
    exists s',
      for_from start n body s = (Ok tt, s') /\ wf s'
      /\ forall j, pixel_at s' j =
           if decide (start <= j < start + n)%nat then P j <$> pixel_at s j
           else pixel_at s j.
Proof.
  intros Hbody. induction n as [| n IH]; intros start s Hwf Hle.
  - exists s. split; [reflexivity |]. split; [exact Hwf |].
    intros j. case_decide; [lia | reflexivity].
  - destruct (Hbody start s Hwf ltac:(lia)) as (s1 & Hrun1 & Hwf1 & Hat1).
    destruct (IH (Datatypes.S start) s1 Hwf1 ltac:(lia))
      as (s' & Hrun & Hwf' & Hat).
    exists s'. split; [| split; [exact Hwf' |]].
    + cbn [for_from]. now rewrite (bind_ok _ _ _ _ _ Hrun1).
    + intros j. rewrite Hat, Hat1.
      repeat case_decide; subst; try reflexivity; lia.
Qed.

Lemma for_from_shift {S : Type} (body : nat -> M S unit) (n start : nat)
      (s : S) :
  for_from start n (fun i => body (Datatypes.S i)) s
  = for_from (Datatypes.S start) n body s.
Proof.
  revert start s. induction n as [| n IH]; intros start s; [reflexivity |].
  cbn [for_from]. unfold bind.
  destruct (body (Datatypes.S start) s) as [[[] | e] s1]; [apply IH | reflexivity].
Qed.

(** A loop keeps what each run of its body keeps, raised or not. *)
Lemma for_from_invariant {S : Type} (I : S -> Prop)
      (body : nat -> M S unit) :
  (forall x s, I s -> I (snd (body x s))) ->
  forall n start s, I s -> I (snd (for_from start n body s)).
Proof.
  intros Hbody. induction n as [| n IH]; intros start s Hs; [exact Hs |].
  cbn [for_from]. unfold bind. specialize (Hbody start s Hs).
  destruct (body start s) as [[[] | e] s1]; cbn [snd] in *.
  - now apply IH.
  - exact Hbody.
Qed.

Lemma pixel_at_in_range (s : buffer) (i : nat) (p : pixel) :
  buffer_in_range s = true -> pixel_at s i = Some p ->
  pixel_in_range p = true.
Proof.
  unfold buffer_in_range, pixel_at. intros Hr Hp.
  destruct (slots s !! i) as [l |]; [| discriminate].
  rewrite forallb_forall in Hr. apply Hr.
  apply list_elem_of_In. eapply list_elem_of_lookup_2; eauto.
Qed.

Lemma pixel_in_range_bounds (p : pixel) :
  pixel_in_range p = true ->
  0 <= red p < 256 /\ 0 <= green p < 256 /\ 0 <= blue p < 256
  /\ 0 <= brightness p < 32.
Proof.
  unfold pixel_in_range. intros H.
  repeat (apply andb_prop in H as [H ?]). lia.
Qed.

Lemma land_255_small (z : Z) : 0 <= z < 256 -> Z.land z 255 = z.
Proof.
  intros Hz. change 255 with (Z.ones 8). rewrite Z.land_ones by lia.
  apply Z.mod_small. exact Hz.
Qed.

End PixelwiseFacts.

(** X1.  [set_all] on a well-formed buffer, with colours that convert and
    a brightness whose product with 31.0 [int] accepts (or none), returns,
    and every position then holds the three channels masked to 8 bits and
    [int(31.0 * brightness)] masked to 5 bits, or, when no brightness was
    given, the brightness that position had. *)
Theorem set_all_updates_every_pixel (s : buffer) (r g b : pynum)
        (br : option pynum) (zr zg zb : Z) (qo : option Z) :
  wf s ->
  py_int r = Ok zr -> py_int g = Ok zg -> py_int b = Ok zb ->
  match br with
  | None => qo = None
  | Some v =>
      exists f z, py_to_float v = Ok f
                  /\ py_int (PyFloat (fmul f31 f)) = Ok z
                  /\ qo = Some (Z.land z 31)
  end ->
  exists s',
    set_all r g b br s = (Ok tt, s')
    /\ wf s'
    /\ forall i, (i < NUM_PIXELS)%nat ->
         exists p, pixel_at s i = Some p
                   /\ pixel_at s' i
                      = Some (Pixel (Z.land zr 255) (Z.land zg 255)
                                    (Z.land zb 255) (new_brightness qo p)).
Proof.
  intros Hwf Hr Hg Hb Hbr.
  assert (Hq : quantized br = Ok qo).
  { destruct br as [v |]; cbn [quantized]; [| now subst].
    destruct Hbr as (f & z & Hf & Hz & ->). unfold quantize.
    now rewrite Hf, Hz. }
  destruct (for_from_pixelwise
              (fun x => set_pixel (Z.of_nat x) r g b br)
              (fun _ p => Pixel (Z.land zr 255) (Z.land zg 255)
                                (Z.land zb 255) (new_brightness qo p))
              ltac:(intros x t Ht Hx;
                    exact (set_pixel_effect t x r g b br zr zg zb qo
                             Ht Hx Hr Hg Hb Hq))
              NUM_PIXELS 0%nat s Hwf ltac:(lia))
    as (s' & Hrun & Hwf' & Hat).
  exists s'. split; [exact Hrun |]. split; [exact Hwf' |].
  intros i Hi. destruct (wf_pixel_at s i Hwf Hi) as (l & p & _ & _ & Hp).
  exists p. split; [exact Hp |]. rewrite Hat, Hp.
  case_decide; [reflexivity | lia].
Qed.

Lemma set_all_updates_every_pixel_witness :
  exists s',
    set_all (PyInt 300) (PyFloat f_0_25) (PyInt (-1)) None
            (snd (set_pixel 2 (PyInt 1) (PyInt 1) (PyInt 1) (Some (PyInt 1))
                    initial_pixels)) = (Ok tt, s')
    /\ wf s'
    /\ forall i, (i < NUM_PIXELS)%nat ->
         exists p,
           pixel_at (snd (set_pixel 2 (PyInt 1) (PyInt 1) (PyInt 1)
                            (Some (PyInt 1)) initial_pixels)) i = Some p
           /\ pixel_at s' i
              = Some (Pixel (Z.land 300 255) (Z.land 0 255)
                            (Z.land (-1) 255) (new_brightness None p)).
Proof.
  apply (set_all_updates_every_pixel
           (snd (set_pixel 2 (PyInt 1) (PyInt 1) (PyInt 1) (Some (PyInt 1))
                   initial_pixels))
           (PyInt 300) (PyFloat f_0_25) (PyInt (-1)) None 300 0 (-1) None);
    reflexivity.
Defined.

(** X2.  [set_all] with an argument that does not convert (a colour [int]
    rejects, a brightness the quantisation rejects) raises and leaves the
    buffer as it was: no pixel is written before the error. *)
Theorem set_all_raises_unchanged (s : buffer) (r g b : pynum)
        (br : option pynum) :
  converts r g b br = false ->
  exists e, set_all r g b br s = (Raise e, s).
Proof.
  intros Hc.
  assert (Hfirst : exists e, set_pixel (Z.of_nat 0) r g b br s = (Raise e, s)).
  { destruct (set_pixel (Z.of_nat 0) r g b br s) as [res s'] eqn:Hrun.
    destruct (set_pixel_cases s s' _ r g b br res Hrun)
      as [-> | (i & p & Hi & -> & ->)].
    - destruct res as [[] | e]; [| eauto]. exfalso.
      revert Hrun Hc. unfold set_pixel, converts, bind, lift, rebind.
      destruct br as [v |].
      + destruct (quantize v); [| discriminate].
        destruct (py_int r); [| discriminate].
        destruct (py_int g); [| discriminate].
        destruct (py_int b); [| discriminate]. discriminate.
      + destruct (slot_ref _ s) as [[l | e] t]; [| discriminate].
        unfold deref, ret. destruct (heap t !! l); [| discriminate].
        destruct (py_int r); [| discriminate].
        destruct (py_int g); [| discriminate].
        destruct (py_int b); [| discriminate]. discriminate.
    - exfalso. revert Hrun Hc. unfold set_pixel, converts, bind, lift, rebind.
      destruct br as [v |].
      + destruct (quantize v); [| discriminate].
        destruct (py_int r); [| discriminate].
        destruct (py_int g); [| discriminate].
        destruct (py_int b); [| discriminate]. discriminate.
      + destruct (slot_ref _ s) as [[l | e] t]; [| discriminate].
        unfold deref, ret. destruct (heap t !! l); [| discriminate].
        destruct (py_int r); [| discriminate].
        destruct (py_int g); [| discriminate].
        destruct (py_int b); [| discriminate]. discriminate. }
  destruct Hfirst as [e He]. exists e.
  unfold set_all, for_range, NUM_PIXELS. cbn [for_from].
  now apply bind_raise.
Qed.

Lemma set_all_raises_unchanged_witness :
  exists e, set_all (PyInt 1) (PyInt 2) (PyInt 3) (Some (PyFloat S754_nan))
                    initial_pixels = (Raise e, initial_pixels).
Proof.
  apply (set_all_raises_unchanged initial_pixels (PyInt 1) (PyInt 2) (PyInt 3)
           (Some (PyFloat S754_nan))).
  reflexivity.
Defined.

Section InvariantFacts.

Lemma in_range_Forall (s : buffer) :
  buffer_in_range s = true
  <-> Forall (fun p => pixel_in_range p = true) (heap s).
Proof.
  unfold buffer_in_range. induction (heap s) as [| p h IH]; cbn [forallb].
  - split; [constructor | reflexivity].
  - rewrite andb_true_iff, IH, Forall_cons. reflexivity.
Qed.

Lemma quantize_range (v : pynum) (q : Z) :
  quantize v = Ok q -> 0 <= q < 32.
Proof.
  unfold quantize. destruct (py_to_float v) as [f |]; [| discriminate].
  destruct (py_int (PyFloat (fmul f31 f))) as [z |]; [| discriminate].
  intros [= <-]. apply land_31_range.
Qed.

Lemma in_range_intro (r g b q : Z) :
  0 <= r < 256 -> 0 <= g < 256 -> 0 <= b < 256 -> 0 <= q < 32 ->
  pixel_in_range (Pixel r g b q) = true.
Proof.
  intros Hr Hg Hb Hq. unfold pixel_in_range. cbn [red green blue brightness].
  repeat (apply andb_true_intro; split);
    first [apply Z.leb_le; lia | apply Z.ltb_lt; lia].
Qed.

Lemma sound_rebound (s : buffer) (i : nat) (p : pixel) :
  sound s -> pixel_in_range p = true ->
  sound {| slots := <[i := length (heap s)]> (slots s); heap := heap s ++ [p] |}.
Proof.
  intros [Hwf Hr] Hp. split; [now apply set_pixel_wf |].
  unfold buffer_in_range in *. cbn [heap]. rewrite forallb_app, Hr. cbn.
  now rewrite Hp.
Qed.

Lemma sound_store (s : buffer) (x : Z) (r g b : pynum) (q : Z) :
  sound s -> 0 <= q < 32 ->
  sound (snd ((zr <- lift (py_int r) ;;
               zg <- lift (py_int g) ;;
               zb <- lift (py_int b) ;;
               rebind x (Pixel (Z.land zr 255) (Z.land zg 255)
                               (Z.land zb 255) q)) s)).
Proof.
  intros Hs Hq. unfold bind, lift, rebind.
  destruct (py_int r) as [zr |]; [| exact Hs].
  destruct (py_int g) as [zg |]; [| exact Hs].
  destruct (py_int b) as [zb |]; [| exact Hs].
  destruct (py_index (length (slots s)) x) as [i |]; [| exact Hs].
  cbn [snd]. apply sound_rebound; [exact Hs |].
  apply in_range_intro; auto using land_255_range.
Qed.

Lemma sound_set_pixel (s : buffer) (x : Z) (r g b : pynum)
      (br : option pynum) :
  sound s -> sound (snd (set_pixel x r g b br s)).
Proof.
  intros Hs. unfold set_pixel. unfold bind at 1.
  destruct (match br with
            | None => l <- slot_ref x ;; p <- deref l ;; ret (brightness p)
            | Some v => lift (quantize v)
            end s) as [[q | e] t] eqn:Hfirst.
  - assert (Ht : t = s /\ 0 <= q < 32).
    { destruct br as [v |].
      - unfold lift in Hfirst. injection Hfirst as Hv <-.
        split; [reflexivity |]. eapply quantize_range; eauto.
      - unfold bind, slot_ref, deref, ret in Hfirst.
        destruct (py_index (length (slots s)) x) as [i |]; [| discriminate].
        destruct (slots s !! i) as [l |] eqn:Hl; [| discriminate].
        destruct (heap s !! l) as [p |] eqn:Hp; [| discriminate].
        injection Hfirst as <- <-. split; [reflexivity |].
        assert (Hpr : pixel_in_range p = true).
        { destruct Hs as [_ Hr]. apply (pixel_at_in_range s i p Hr).
          unfold pixel_at. now rewrite Hl. }
        apply pixel_in_range_bounds in Hpr. tauto. }
    destruct Ht as [-> Hq]. now apply sound_store.
  - cbn [snd].
    assert (Ht : t = s); [| now subst].
    destruct br as [v |].
    + unfold lift in Hfirst. now injection Hfirst as _ <-.
    + unfold bind, slot_ref, deref, ret in Hfirst.
      destruct (py_index (length (slots s)) x) as [i |];
        [| now injection Hfirst as _ <-].
      destruct (slots s !! i) as [l |]; [| now injection Hfirst as _ <-].
      destruct (heap s !! l) as [p |]; [discriminate |].
      now injection Hfirst as _ <-.
Qed.

Lemma sound_update (s : buffer) (l : nat) (f : pixel -> pixel) :
  (forall p, pixel_in_range p = true -> pixel_in_range (f p) = true) ->
  sound s -> sound (snd (update l f s)).
Proof.
  intros Hf [Hwf Hr]. unfold update.
  destruct (heap s !! l) as [p |] eqn:Hp; [| now split]. cbn [snd]. split.
  - apply wf_intro; cbn [slots heap].
    + now apply wf_length.
    + rewrite length_insert. now apply wf_heap.
  - apply in_range_Forall. cbn [heap]. apply in_range_Forall in Hr.
    apply Forall_insert; [exact Hr |]. apply Hf.
    rewrite Forall_lookup in Hr. eauto.
Qed.

Lemma slot_ref_state (s : buffer) (x : Z) : snd (slot_ref x s) = s.
Proof.
  unfold slot_ref.
  destruct (py_index (length (slots s)) x) as [i |]; [| reflexivity].
  now destruct (slots s !! i).
Qed.

Lemma sound_slot_update (s : buffer) (x : Z) (f : pixel -> pixel) :
  (forall p, pixel_in_range p = true -> pixel_in_range (f p) = true) ->
  sound s -> sound (snd ((l <- slot_ref x ;; update l f) s)).
Proof.
  intros Hf Hs. unfold bind. pose proof (slot_ref_state s x) as Hst.
  destruct (slot_ref x s) as [[l | e] t]; cbn [snd] in Hst; subst t.
  - now apply sound_update.
  - exact Hs.
Qed.

Lemma sound_clear (s : buffer) : sound s -> sound (snd (clear s)).
Proof.
  intros Hs. unfold clear, for_range.
  apply (for_from_invariant sound); [| exact Hs].
  intros x t Ht. apply sound_slot_update; [| exact Ht].
  intros p Hp. apply pixel_in_range_bounds in Hp.
  apply in_range_intro; lia.
Qed.

Lemma sound_set_brightness (s : buffer) (b : pynum) :
  sound s -> sound (snd (set_brightness b s)).
Proof.
  intros Hs. unfold set_brightness.
  destruct (py_lt_lit b 0 f0 || py_gt_lit b 1 f1); [exact Hs |].
  unfold for_range. apply (for_from_invariant sound); [| exact Hs].
  intros x t Ht. unfold bind at 1, lift.
  destruct (quantize b) as [q |] eqn:Hq; [| exact Ht].
  apply sound_slot_update; [| exact Ht].
  intros p Hp. apply pixel_in_range_bounds in Hp.
  pose proof (quantize_range b q Hq). apply in_range_intro; lia.
Qed.

Lemma sound_set_all (s : buffer) (r g b : pynum) (br : option pynum) :
  sound s -> sound (snd (set_all r g b br s)).
Proof.
  intros Hs. unfold set_all, for_range.
  apply (for_from_invariant sound); [| exact Hs].
  intros x t Ht. now apply sound_set_pixel.
Qed.

Lemma sound_run_call (c : api_call) (s : buffer) :
  sound s -> sound (snd (run_call c s)).
Proof.
  destruct c; cbn [run_call];
    auto using sound_set_pixel, sound_set_all, sound_clear,
               sound_set_brightness.
Qed.

(** Settle a goal about what is reported for a given stored brightness by
    computing the fraction first. *)
Ltac by_reported :=
  match goal with
  | |- exists fr, reported ?q = Ok fr /\ _ =>
      let r := eval vm_compute in (reported q) in
      match r with
      | Ok ?f => exists f; vm_compute; repeat split
      end
  end.

(** A stored brightness is reported as a fraction between 0.0 and 1.0. *)
Lemma reported_unit (q : Z) :
  0 <= q < 32 ->
  exists fr, reported q = Ok fr /\ fle f0 fr = true /\ fle fr f1 = true.
Proof.
  intros Hq.
  assert (Hn : exists n, (n < 32)%nat /\ q = Z.of_nat n)
    by (exists (Z.to_nat q); lia).
  destruct Hn as (n & Hn & ->).
  do 32 (destruct n as [| n]; [by_reported |]).
  lia.
Qed.

(** What the reported fraction quantises back to. *)
Lemma reported_quantize (q : Z) :
  0 <= q < 32 ->
  exists fr, reported q = Ok fr /\ quantize (PyFloat fr) = Ok (read_back q).
Proof.
  intros Hq.
  assert (Hn : exists n, (n < 32)%nat /\ q = Z.of_nat n)
    by (exists (Z.to_nat q); lia).
  destruct Hn as (n & Hn & ->).
  do 32 (destruct n as [| n]; [by_reported |]).
  lia.
Qed.

End InvariantFacts.

(** X3.  Whatever sequence of [set_pixel], [set_all], [clear] and
    [set_brightness] calls is made from the initial buffer, with whatever
    arguments and whether or not a call raises, the buffer keeps its
    [NUM_PIXELS] positions, each referring to a list with channels in
    0..255 and a brightness in 0..31. *)
Theorem buffer_stays_sound (cs : list api_call) :
  wf (run_calls cs initial_pixels)
  /\ buffer_in_range (run_calls cs initial_pixels) = true.
Proof.
  assert (H : forall s, sound s -> sound (run_calls cs s)).
  { induction cs as [| c cs IH]; intros s Hs; [exact Hs |].
    cbn [run_calls]. apply IH. now apply sound_run_call. }
  apply (H initial_pixels). split; reflexivity.
Qed.

(** X4.  On a well-formed, in-range buffer, [get_pixel] at an index in
    [-N, N) returns the channels of the pixel at that position (counted
    from the end when negative), each in 0..255, with a brightness
    fraction between 0.0 and 1.0, and leaves the buffer as it was. *)
Theorem get_pixel_returns_in_range (s : buffer) (x : Z) :
  wf s ->
  buffer_in_range s = true ->
  - Z.of_nat NUM_PIXELS <= x < Z.of_nat NUM_PIXELS ->
  exists p fr,
    pixel_at s (Z.to_nat (x mod Z.of_nat NUM_PIXELS)) = Some p
    /\ get_pixel x s = (Ok (red p, green p, blue p, fr), s)
    /\ 0 <= red p < 256 /\ 0 <= green p < 256 /\ 0 <= blue p < 256
    /\ fle f0 fr = true /\ fle fr f1 = true.
Proof.
  intros Hwf Hr Hx. pose proof (wf_length s Hwf) as Hlen.
  set (i := Z.to_nat (x mod Z.of_nat NUM_PIXELS)).
  assert (Hi : (i < NUM_PIXELS)%nat).
  { pose proof (Z.mod_pos_bound x (Z.of_nat NUM_PIXELS)
                  ltac:(unfold NUM_PIXELS; lia)). lia. }
  assert (Hidx : py_index (length (slots s)) x = Ok i).
  { rewrite Hlen. subst i. destruct (Z.leb_spec 0 x).
    - rewrite Z.mod_small by lia. apply py_index_valid. lia.
    - assert (Hmod : x mod Z.of_nat NUM_PIXELS = Z.of_nat NUM_PIXELS + x)
        by (symmetry; apply Z.mod_unique with (q := -1); lia).
      rewrite Hmod. apply py_index_negative. lia. }
  destruct (wf_pixel_at s i Hwf Hi) as (l & p & _ & _ & Hp).
  pose proof (pixel_at_in_range s i p Hr Hp) as Hpr.
  apply pixel_in_range_bounds in Hpr as (Hr1 & Hg1 & Hb1 & Hq1).
  destruct (reported_unit (brightness p) Hq1) as (fr & Hfr & H0 & H1).
  exists p, fr. rewrite get_pixel_spec, Hidx, Hp, Hfr. tauto.
Qed.

Lemma get_pixel_returns_in_range_witness :
  exists p fr,
    pixel_at initial_pixels (Z.to_nat ((-3) mod Z.of_nat NUM_PIXELS)) = Some p
    /\ get_pixel (-3) initial_pixels
       = (Ok (red p, green p, blue p, fr), initial_pixels)
    /\ 0 <= red p < 256 /\ 0 <= green p < 256 /\ 0 <= blue p < 256
    /\ fle f0 fr = true /\ fle fr f1 = true.
Proof.
  apply (get_pixel_returns_in_range initial_pixels (-3));
    first [reflexivity | unfold NUM_PIXELS; lia].
Defined.

(** X5.  [get_pixel] at an index [x >= N] or [x < -N] raises [IndexError]
    and leaves the buffer as it was. *)
Theorem get_pixel_out_of_range (s : buffer) (x : Z) :
  wf s ->
  x < - Z.of_nat NUM_PIXELS \/ Z.of_nat NUM_PIXELS <= x ->
  get_pixel x s = (Raise IndexError, s).
Proof.
  intros Hwf Hx. rewrite get_pixel_spec, py_index_out; [reflexivity |].
  now rewrite (wf_length s Hwf).
Qed.

Lemma get_pixel_out_of_range_witness :
  get_pixel 8 initial_pixels = (Raise IndexError, initial_pixels).
Proof.
  apply (get_pixel_out_of_range initial_pixels 8);
    first [reflexivity | unfold NUM_PIXELS; lia].
Defined.

(** X6.  Writing a pixel back with the values [get_pixel] returned for it
    keeps the three channels but not always the brightness: the fraction
    is rounded to three places and then truncated, so a stored brightness
    [q] comes back as [q] when [q = 0] or [q mod 4 >= 2], and as [q - 1]
    otherwise (1 becomes 0, 8 becomes 7). *)
Theorem brightness_read_back (s : buffer) (x : Z) (p : pixel) :
  wf s ->
  buffer_in_range s = true ->
  0 <= x < Z.of_nat NUM_PIXELS ->
  pixel_at s (Z.to_nat x) = Some p ->
  exists fr s',
    get_pixel x s = (Ok (red p, green p, blue p, fr), s)
    /\ set_pixel x (PyInt (red p)) (PyInt (green p)) (PyInt (blue p))
                 (Some (PyFloat fr)) s = (Ok tt, s')
    /\ pixel_at s' (Z.to_nat x)
       = Some (Pixel (red p) (green p) (blue p) (read_back (brightness p))).
Proof.
  intros Hwf Hr Hx Hp. pose proof (wf_length s Hwf) as Hlen.
  pose proof (pixel_at_in_range s _ p Hr Hp) as Hpr.
  apply pixel_in_range_bounds in Hpr as (Hr1 & Hg1 & Hb1 & Hq1).
  destruct (reported_quantize (brightness p) Hq1) as (fr & Hfr & Hback).
  assert (Hidx : py_index (length (slots s)) x = Ok (Z.to_nat x))
    by (apply py_index_valid; lia).
  exists fr. eexists. split; [| split].
  - now rewrite get_pixel_spec, Hidx, Hp, Hfr.
  - eapply (set_pixel_run s x (Z.to_nat x)); try reflexivity; eassumption.
  - rewrite set_pixel_at_same by lia.
    now rewrite !land_255_small by assumption.
Qed.

Lemma brightness_read_back_witness :
  exists fr s',
    get_pixel 0 (snd (set_brightness (PyFloat f_0_25) initial_pixels))
    = (Ok (red (Pixel 0 0 0 7), green (Pixel 0 0 0 7), blue (Pixel 0 0 0 7),
           fr),
       snd (set_brightness (PyFloat f_0_25) initial_pixels))
    /\ set_pixel 0 (PyInt (red (Pixel 0 0 0 7))) (PyInt (green (Pixel 0 0 0 7)))
                 (PyInt (blue (Pixel 0 0 0 7))) (Some (PyFloat fr))
                 (snd (set_brightness (PyFloat f_0_25) initial_pixels))
       = (Ok tt, s')
    /\ pixel_at s' (Z.to_nat 0)
       = Some (Pixel (red (Pixel 0 0 0 7)) (green (Pixel 0 0 0 7))
                     (blue (Pixel 0 0 0 7))
                     (read_back (brightness (Pixel 0 0 0 7)))).
Proof.
  apply (brightness_read_back
           (snd (set_brightness (PyFloat f_0_25) initial_pixels)) 0
           (Pixel 0 0 0 7));
    first [reflexivity | unfold NUM_PIXELS; lia].
Defined.

(** ** Further properties of the wire protocol *)

Section ReceiverFacts.

Lemma sample_pulses (h : option Z) (dat : Z) (n : nat) (rest : list call) :
  sample dat (pulses h n ++ rest) = replicate n dat ++ sample dat rest.
Proof.
  induction n as [| n IH]; [reflexivity |].
  cbn [pulses replicate]. rewrite <- app_assoc.
  change (sample dat (pulse h ++ pulses h n ++ rest))
    with (dat :: sample dat (pulses h n ++ rest)).
  now rewrite IH.
Qed.

Lemma sample_dat (h : option Z) (dat level : Z) (rest : list call) :
  sample dat (GpioWrite h DAT level :: rest) = sample level rest.
Proof. reflexivity. Qed.

Lemma sample_pixel (h : option Z) (dat : Z) (p : pixel) (rest : list call) :
  sample dat (pixel_frame h p ++ rest)
  = byte_bits (Z.lor 224 (brightness p))
    ++ byte_bits (blue p) ++ byte_bits (green p) ++ byte_bits (red p)
    ++ sample (bit_of (red p) 0) rest.
Proof.
  unfold pixel_frame. repeat rewrite <- app_assoc.
  rewrite !sample_byte. unfold byte_bits. repeat rewrite <- app_assoc.
  reflexivity.
Qed.

Lemma bytes_of_byte_bits (x : Z) (rest : list Z) :
  bytes_of_bits (byte_bits x ++ rest) = x mod 256 :: bytes_of_bits rest.
Proof. unfold byte_bits. cbn [app bytes_of_bits]. now rewrite byte_of_bits. Qed.

(** The end frame, whatever level the data line was left at: 36 zero
    bits, that is four zero bytes and four bits over. *)
Lemma bytes_of_end_frame (h : option Z) (dat : Z) :
  bytes_of_bits (sample dat (end_frame h)) = [0; 0; 0; 0].
Proof.
  unfold end_frame. rewrite sample_dat.
  rewrite <- (app_nil_r (pulses h 36)), sample_pulses. reflexivity.
Qed.

Lemma wire_bytes_pixels (h : option Z) (ps : list pixel) (dat : Z) :
  forallb pixel_in_range ps = true ->
  bytes_of_bits (sample dat (flat_map (pixel_frame h) ps ++ end_frame h))
  = flat_map pixel_bytes ps ++ [0; 0; 0; 0].
Proof.
  revert dat. induction ps as [| p ps IH]; intros dat Hr.
  - cbn [flat_map app]. apply bytes_of_end_frame.
  - cbn [forallb] in Hr. apply andb_prop in Hr as [Hp Hps].
    cbn [flat_map]. rewrite <- app_assoc, sample_pixel.
    rewrite !bytes_of_byte_bits, (IH _ Hps).
    pose proof (pixel_in_range_bounds p Hp) as (Hr1 & Hg1 & Hb1 & Hq1).
    rewrite lor_224 by exact Hq1. rewrite !Z.mod_small by lia.
    reflexivity.
Qed.

(** What the chain receives in one transmission. *)
Lemma wire_bytes_transmission (h : option Z) (ps : list pixel) :
  forallb pixel_in_range ps = true ->
  wire_bytes (transmission h ps)
  = [0; 0; 0; 0] ++ flat_map pixel_bytes ps ++ [0; 0; 0; 0].
Proof.
  intros Hr. unfold wire_bytes, transmission, start_frame.
  rewrite <- app_comm_cons, sample_dat, sample_pulses.
  change (replicate 32 0) with (byte_bits 0 ++ byte_bits 0 ++ byte_bits 0
                                ++ byte_bits 0).
  repeat rewrite <- app_assoc. rewrite !bytes_of_byte_bits.
  now rewrite wire_bytes_pixels.
Qed.

Lemma marker_bits (q : Z) :
  0 <= q < 32 ->
  Z.land (224 + q) 224 = 224 /\ Z.land (224 + q) 31 = q.
Proof.
  intros Hq.
  assert (Hn : exists n, (n < 32)%nat /\ q = Z.of_nat n)
    by (exists (Z.to_nat q); lia).
  destruct Hn as (n & Hn & ->).
  do 32 (destruct n as [| n]; [split; reflexivity |]). lia.
Qed.

Lemma decode_pixels_frames (ps : list pixel) (fuel : nat) :
  forallb pixel_in_range ps = true ->
  (length ps < fuel)%nat ->
  decode_pixels fuel (flat_map pixel_bytes ps ++ [0; 0; 0; 0]) = ps.
Proof.
  revert fuel. induction ps as [| p ps IH]; intros fuel Hr Hfuel.
  - destruct fuel as [| fuel]; [cbn in Hfuel; lia | reflexivity].
  - cbn [forallb] in Hr. apply andb_prop in Hr as [Hp Hps].
    destruct fuel as [| fuel]; [cbn in Hfuel; lia |].
    cbn [length] in Hfuel.
    cbn [flat_map pixel_bytes app decode_pixels].
    pose proof (pixel_in_range_bounds p Hp) as (_ & _ & _ & Hq).
    destruct (marker_bits (brightness p) Hq) as [-> ->].
    rewrite Z.eqb_refl, (IH fuel Hps) by lia. now destruct p.
Qed.

Lemma pixel_bytes_length (ps : list pixel) :
  length (flat_map pixel_bytes ps) = (4 * length ps)%nat.
Proof. induction ps as [| p ps IH]; [reflexivity |]. cbn. rewrite IH. lia. Qed.

Lemma decode_wire_bytes (h : option Z) (ps : list pixel) :
  forallb pixel_in_range ps = true ->
  decode_transmission (wire_bytes (transmission h ps)) = Some ps.
Proof.
  intros Hr. rewrite wire_bytes_transmission by exact Hr.
  cbn [app decode_transmission]. f_equal.
  apply decode_pixels_frames; [exact Hr |].
  rewrite length_app, pixel_bytes_length. cbn [length]. lia.
Qed.

Lemma pixel_list_lookup (b : buffer) (i : nat) :
  wf b -> pixel_list b !! i = pixel_at b i.
Proof.
  intros Hwf. unfold pixel_list, pixel_at.
  pose proof (wf_heap b Hwf) as Hall. revert i.
  induction Hall as [| l ls Hl _ IH]; intros i; [now destruct i |].
  destruct (lookup_lt_is_Some_2 _ _ Hl) as [p Hp].
  cbn [deref_all]. rewrite Hp. destruct i as [| i]; cbn.
  - now rewrite Hp.
  - apply IH.
Qed.

Lemma pixel_list_in_range (b : buffer) :
  wf b -> buffer_in_range b = true ->
  forallb pixel_in_range (pixel_list b) = true.
Proof.
  intros Hwf Hr. apply forallb_forall. intros p Hin.
  apply list_elem_of_In, list_elem_of_lookup in Hin as [i Hi].
  rewrite pixel_list_lookup in Hi by exact Hwf.
  eapply pixel_at_in_range; eauto.
Qed.

End ReceiverFacts.

(** X7.  On a device whose pin writes do not raise, what [show()] sends
    from a driver that is set up is received, sampling the data line at
    each clock pulse, as four zero bytes, then for each buffer position in
    order the marker byte [224 + brightness] and blue, green, red, then
    four zero bytes; and decoding these bytes gives back the pixels of
    the buffer, position by position. *)
Theorem show_round_trip (respond : list call -> call -> result Z)
        (chip_labels : list (Z * string)) (s : driver) :
  writes_ok respond ->
  wf (pixels s) ->
  buffer_in_range (pixels s) = true ->
  _gpio_setup s = true ->
  exists tx ps,
    show respond chip_labels s = (Ok tt, logs tx s)
    /\ wire_bytes tx = [0; 0; 0; 0] ++ flat_map pixel_bytes ps ++ [0; 0; 0; 0]
    /\ decode_transmission (wire_bytes tx) = Some ps
    /\ length ps = NUM_PIXELS
    /\ forall i, (i < NUM_PIXELS)%nat -> ps !! i = pixel_at (pixels s) i.
Proof.
  intros Hw Hwf Hr Hready.
  exists (transmission (_handle s) (pixel_list (pixels s))),
         (pixel_list (pixels s)).
  pose proof (pixel_list_in_range _ Hwf Hr) as Hps.
  split; [| split; [| split; [| split]]].
  - rewrite show_ready by exact Hready. now apply transmit_run.
  - now apply wire_bytes_transmission.
  - now apply decode_wire_bytes.
  - now apply pixel_list_length.
  - intros i _. now apply pixel_list_lookup.
Qed.

Lemma show_round_trip_witness :
  exists tx ps,
    show world_ok labels_pi5
         (with_gpio_setup true (with_handle (Some 0) initial_driver))
    = (Ok tt,
       logs tx (with_gpio_setup true (with_handle (Some 0) initial_driver)))
    /\ wire_bytes tx = [0; 0; 0; 0] ++ flat_map pixel_bytes ps ++ [0; 0; 0; 0]
    /\ decode_transmission (wire_bytes tx) = Some ps
    /\ length ps = NUM_PIXELS
    /\ forall i, (i < NUM_PIXELS)%nat -> ps !! i = pixel_at initial_pixels i.
Proof.
  exact (show_round_trip world_ok labels_pi5
           (with_gpio_setup true (with_handle (Some 0) initial_driver))
           world_ok_writes eq_refl eq_refl eq_refl).
Defined.

(** ** Further properties of the driver: the exit hook, failures *)

Section ExitFacts.

Variable respond : list call -> call -> result Z.
Variable chip_labels : list (Z * string).

Lemma on_pixels_run {A : Type} (m : M buffer A) (s : driver) :
  on_pixels m s = (fst (m (pixels s)), with_pixels (snd (m (pixels s))) s).
Proof. unfold on_pixels. now destruct (m (pixels s)). Qed.

(** The last part of [_exit]: close the chip if there is a handle. *)
Lemma exit_close_run (s : driver) :
  (s' <- get ;;
   match _handle s' with
   | Some h =>
       _ <- lgpio_call respond (GpiochipClose (Some h)) ;; set_handle None
   | None => ret tt
   end) s
  = match _handle s with
    | Some h =>
        match respond (trace s) (GpiochipClose (Some h)) with
        | Ok _ =>
            (Ok tt, with_handle None (logs [GpiochipClose (Some h)] s))
        | Raise e => (Raise e, logs [GpiochipClose (Some h)] s)
        end
    | None => (Ok tt, s)
    end.
Proof.
  unfold bind at 1, get. destruct (_handle s) as [h |]; [| reflexivity].
  unfold bind, lgpio_call, set_handle.
  now destruct (respond (trace s) (GpiochipClose (Some h))).
Qed.

Lemma exit_unfold (s : driver) :
  _exit respond chip_labels s
  = ((if _clear_on_exit s
      then on_pixels clear ;;; show respond chip_labels
      else ret tt) ;;;
     (s' <- get ;;
      match _handle s' with
      | Some h =>
          _ <- lgpio_call respond (GpiochipClose (Some h)) ;; set_handle None
      | None => ret tt
      end)) s.
Proof. reflexivity. Qed.

Lemma keeps_ret {A : Type} (a : A) : keeps_buffer (ret a).
Proof. intros s. now split. Qed.

Lemma keeps_bind {A B : Type} (m : M driver A) (k : A -> M driver B) :
  keeps_buffer m -> (forall a, keeps_buffer (k a)) -> keeps_buffer (bind m k).
Proof.
  intros Hm Hk s. unfold bind. specialize (Hm s).
  destruct (m s) as [[a | e] s1]; cbn [snd] in *; [| exact Hm].
  destruct (Hk a s1) as [H1 H2]. destruct Hm as [H3 H4].
  split; congruence.
Qed.

Lemma keeps_get : keeps_buffer (@get driver).
Proof. intros s. now split. Qed.

Lemma keeps_lgpio_call (c : call) : keeps_buffer (lgpio_call respond c).
Proof. intros s. now split. Qed.

Lemma keeps_emit (c : call) : keeps_buffer (emit c).
Proof. intros s. now split. Qed.

Lemma keeps_gpio_write (gpio level : Z) :
  keeps_buffer (gpio_write respond gpio level).
Proof.
  unfold gpio_write. apply keeps_bind; [apply keeps_get |]. intros s.
  apply keeps_bind; [apply keeps_lgpio_call |]. intros _. apply keeps_ret.
Qed.

Lemma keeps_gpio_claim_output (gpio : Z) :
  keeps_buffer (gpio_claim_output respond gpio).
Proof.
  unfold gpio_claim_output. apply keeps_bind; [apply keeps_get |]. intros s.
  apply keeps_bind; [apply keeps_lgpio_call |]. intros _. apply keeps_ret.
Qed.

Lemma keeps_gpio_free (gpio : Z) : keeps_buffer (gpio_free respond gpio).
Proof.
  unfold gpio_free. apply keeps_bind; [apply keeps_get |]. intros s.
  apply keeps_bind; [apply keeps_lgpio_call |]. intros _. apply keeps_ret.
Qed.

Lemma keeps_try_except {A : Type} (body handler : M driver A) :
  keeps_buffer body -> keeps_buffer handler ->
  keeps_buffer (try_except body handler).
Proof.
  intros Hb Hh s. unfold try_except. specialize (Hb s).
  destruct (body s) as [[a | []] s1]; cbn [snd] in *; try exact Hb.
  destruct (Hh s1) as [H1 H2]. destruct Hb as [H3 H4]. split; congruence.
Qed.

Lemma keeps_for_from (body : nat -> M driver unit) :
  (forall x, keeps_buffer (body x)) ->
  forall n start, keeps_buffer (for_from start n body).
Proof.
  intros Hb. induction n as [| n IH]; intros start; [apply keeps_ret |].
  cbn [for_from]. apply keeps_bind; [apply Hb |]. intros _. apply IH.
Qed.

Lemma keeps_for_each {A : Type} (body : A -> M driver unit) (l : list A) :
  (forall a, keeps_buffer (body a)) -> keeps_buffer (for_each l body).
Proof.
  intros Hb. induction l as [| a l IH]; [apply keeps_ret |].
  cbn [for_each]. apply keeps_bind; [apply Hb |]. intros _. exact IH.
Qed.

Lemma keeps_clock_pulse : keeps_buffer (clock_pulse respond).
Proof.
  unfold clock_pulse, time_sleep.
  repeat (apply keeps_bind; [first [apply keeps_gpio_write | apply keeps_emit] |];
          intros _).
  apply keeps_emit.
Qed.

Lemma keeps_write_bits (n : nat) (byte : Z) :
  keeps_buffer (write_bits respond n byte).
Proof.
  revert byte. induction n as [| n IH]; intros byte; [apply keeps_ret |].
  cbn [write_bits]. unfold time_sleep.
  repeat (apply keeps_bind; [first [apply keeps_gpio_write | apply keeps_emit] |];
          intros _).
  apply IH.
Qed.

Lemma keeps_show_pixel (l : nat) : keeps_buffer (show_pixel respond l).
Proof.
  unfold show_pixel, _write_byte. apply keeps_bind.
  - intros s. rewrite on_pixels_run. unfold deref.
    destruct (heap (pixels s) !! l); cbn; now destruct s.
  - intros p.
    repeat (apply keeps_bind; [apply keeps_write_bits |]; intros _).
    apply keeps_write_bits.
Qed.

Lemma keeps_transmit : keeps_buffer (transmit respond).
Proof.
  unfold transmit, _sof, _eof, for_range.
  apply keeps_bind.
  { apply keeps_bind; [apply keeps_gpio_write |]. intros _.
    apply keeps_for_from. intros _. apply keeps_clock_pulse. }
  intros _. apply keeps_bind.
  { apply keeps_bind; [apply keeps_get |]. intros s.
    apply keeps_for_each. apply keeps_show_pixel. }
  intros _. apply keeps_bind; [apply keeps_gpio_write |]. intros _.
  apply keeps_for_from. intros _. apply keeps_clock_pulse.
Qed.

Lemma keeps_setup : keeps_buffer (setup respond chip_labels).
Proof.
  unfold setup, open_chip, _find_rp1_chip, claim_or_reclaim.
  apply keeps_bind.
  { apply keeps_bind.
    { apply keeps_bind; [apply keeps_emit |]. intros _. apply keeps_ret. }
    intros chip. apply keeps_bind; [apply keeps_lgpio_call |]. intros h.
    intros s. now split. }
  intros _. apply keeps_bind.
  { apply keeps_try_except; [apply keeps_gpio_claim_output |].
    apply keeps_bind; [apply keeps_gpio_free |]. intros _.
    apply keeps_gpio_claim_output. }
  intros _. apply keeps_bind.
  { apply keeps_try_except; [apply keeps_gpio_claim_output |].
    apply keeps_bind; [apply keeps_gpio_free |]. intros _.
    apply keeps_gpio_claim_output. }
  intros _. apply keeps_bind; [intros s; now split |]. intros _.
  intros s. now split.
Qed.

Lemma keeps_show : keeps_buffer (show respond chip_labels).
Proof.
  unfold show. apply keeps_bind; [apply keeps_get |]. intros s.
  apply keeps_bind; [| intros _; apply keeps_transmit].
  destruct (_gpio_setup s); [apply keeps_ret | apply keeps_setup].
Qed.

Lemma exit_clear_run (s : driver) (h : Z) :
  writes_ok respond ->
  closes_ok respond ->
  wf (pixels s) ->
  _gpio_setup s = true ->
  _clear_on_exit s = true ->
  _handle s = Some h ->
  exists b,
    wf b
    /\ (forall i, (i < NUM_PIXELS)%nat ->
          pixel_at b i
          = (fun p => Pixel 0 0 0 (brightness p)) <$> pixel_at (pixels s) i)
    /\ _exit respond chip_labels s
       = (Ok tt,
          with_handle None
            (logs (transmission (Some h) (pixel_list b)
                   ++ [GpiochipClose (Some h)]) (with_pixels b s))).
Proof.
  intros Hw Hc Hwf Hready Hflag Hh.
  destruct (update_all (fun p => Pixel 0 0 0 (brightness p)) (pixels s)
              ltac:(reflexivity) Hwf) as (b & Hclear & Hwfb & _ & Hat).
  fold clear in Hclear.
  exists b. split; [exact Hwfb |]. split; [exact Hat |].
  set (s1 := with_pixels b s).
  assert (Hshow : show respond chip_labels s1
                  = (Ok tt, logs (transmission (Some h) (pixel_list b)) s1)).
  { rewrite show_ready by exact Hready.
    rewrite transmit_run by assumption. cbn [_handle pixels s1 with_pixels].
    now rewrite Hh. }
  set (s2 := logs (transmission (Some h) (pixel_list b)) s1) in *.
  destruct (Hc (trace s2) (Some h)) as [v Hv].
  rewrite exit_unfold, Hflag.
  assert (Hfirst : (on_pixels clear ;;; show respond chip_labels) s
                   = (Ok tt, s2)).
  { unfold bind. rewrite on_pixels_run, Hclear. cbn [fst snd].
    fold s1. now rewrite Hshow. }
  rewrite (bind_ok _ _ _ _ _ Hfirst), exit_close_run.
  replace (_handle s2) with (Some h) by (symmetry; exact Hh).
  rewrite Hv. unfold s2, s1, with_handle, logs, with_pixels. cbn.
  now rewrite <- app_assoc.
Qed.

End ExitFacts.

(** X8.  Whatever the device answers and however it ends, [show()] leaves
    the pixel buffer and the clear-on-exit flag exactly as they were. *)
Theorem show_keeps_buffer (respond : list call -> call -> result Z)
        (chip_labels : list (Z * string)) (s : driver) :
  pixels (snd (show respond chip_labels s)) = pixels s
  /\ _clear_on_exit (snd (show respond chip_labels s)) = _clear_on_exit s.
Proof. apply keeps_show. Qed.

(** X9.  When the chip cannot be opened, the first [show()] raises the
    error of [gpiochip_open] after the label scan and the one attempt: no
    pin is claimed, nothing is sent, the handle and the flag stay as they
    were, so the next [show()] tries again. *)
Theorem show_open_failure (respond : list call -> call -> result Z)
        (chip_labels : list (Z * string)) (s : driver) (e : exn) :
  _gpio_setup s = false ->
  respond (trace s ++ [ScanChipLabels]) (GpiochipOpen (find_rp1 chip_labels))
  = Raise e ->
  show respond chip_labels s
  = (Raise e,
     logs [ScanChipLabels; GpiochipOpen (find_rp1 chip_labels)] s).
Proof.
  intros Hs Hopen. rewrite show_unready by exact Hs. unfold setup.
  apply bind_raise, bind_raise. rewrite open_chip_run. now rewrite Hopen.
Qed.

Lemma show_open_failure_witness :
  show world_no_chip labels_pi5 initial_driver
  = (Raise LgpioError,
     logs [ScanChipLabels; GpiochipOpen (find_rp1 labels_pi5)] initial_driver).
Proof.
  exact (show_open_failure world_no_chip labels_pi5 initial_driver LgpioError
           eq_refl eq_refl).
Defined.

(** X10.  With clear-on-exit set, on a driver that is set up and a device
    whose writes and close do not raise, [_exit] zeroes the channels of
    every pixel (the brightness stays), sends one transmission of that
    buffer, closes the chip and forgets the handle; the set-up flag stays
    set. *)
Theorem exit_clears_and_closes (respond : list call -> call -> result Z)
        (chip_labels : list (Z * string)) (s : driver) (h : Z) :
  writes_ok respond ->
  closes_ok respond ->
  wf (pixels s) ->
  _gpio_setup s = true ->
  _clear_on_exit s = true ->
  _handle s = Some h ->
  exists s',
    _exit respond chip_labels s = (Ok tt, s')
    /\ wf (pixels s')
    /\ (forall i, (i < NUM_PIXELS)%nat ->
          exists p, pixel_at (pixels s) i = Some p
                    /\ pixel_at (pixels s') i
                       = Some (Pixel 0 0 0 (brightness p)))
    /\ trace s'
       = trace s ++ transmission (Some h) (pixel_list (pixels s'))
         ++ [GpiochipClose (Some h)]
    /\ _handle s' = None
    /\ _gpio_setup s' = true.
Proof.
  intros Hw Hc Hwf Hready Hflag Hh.
  destruct (exit_clear_run respond chip_labels s h Hw Hc Hwf Hready Hflag Hh)
    as (b & Hwfb & Hat & Hexit).
  eexists. split; [exact Hexit |].
  split; [exact Hwfb | split; [| split; [| split]]].
  - intros i Hi. destruct (wf_pixel_at _ i Hwf Hi) as (l & p & _ & _ & Hp).
    exists p. split; [exact Hp |].
    cbn [pixels with_handle logs with_pixels]. now rewrite Hat, Hp.
  - reflexivity.
  - reflexivity.
  - exact Hready.
Qed.

Lemma world_ok_closes : closes_ok world_ok.
Proof. intros tr h. now exists 0. Qed.

Lemma exit_clears_and_closes_witness :
  exists s',
    _exit world_ok labels_pi5
          (snd (show world_ok labels_pi5
                  (with_pixels
                     (snd (set_all (PyInt 9) (PyInt 8) (PyInt 7) None
                             initial_pixels)) initial_driver)))
    = (Ok tt, s')
    /\ wf (pixels s')
    /\ (forall i, (i < NUM_PIXELS)%nat ->
          exists p,
            pixel_at
              (pixels
                 (snd (show world_ok labels_pi5
                         (with_pixels
                            (snd (set_all (PyInt 9) (PyInt 8) (PyInt 7) None
                                    initial_pixels)) initial_driver)))) i
            = Some p
            /\ pixel_at (pixels s') i = Some (Pixel 0 0 0 (brightness p)))
    /\ trace s'
       = trace (snd (show world_ok labels_pi5
                       (with_pixels
                          (snd (set_all (PyInt 9) (PyInt 8) (PyInt 7) None
                                  initial_pixels)) initial_driver)))
         ++ transmission (Some 0) (pixel_list (pixels s'))
         ++ [GpiochipClose (Some 0)]
    /\ _handle s' = None
    /\ _gpio_setup s' = true.
Proof.
  apply (exit_clears_and_closes world_ok labels_pi5
           (snd (show world_ok labels_pi5
                   (with_pixels
                      (snd (set_all (PyInt 9) (PyInt 8) (PyInt 7) None
                              initial_pixels)) initial_driver))) 0
           world_ok_writes world_ok_closes);
    vm_compute; reflexivity.
Defined.





(** ** The status daemon *)

Section StatusFacts.

Variable respond : list call -> call -> result Z.
Variable chip_labels : list (Z * string).

Lemma status_brightness_quantized :
  quantized (Some (PyFloat blinkt_status.BRIGHTNESS)) = Ok (Some 1).
Proof. vm_compute. reflexivity. Qed.

Lemma with_pixels_same (s : driver) : with_pixels (pixels s) s = s.
Proof. now destruct s. Qed.

Lemma cpu_colors_masked (i : nat) (r g b : Z) :
  blinkt_status.CPU_COLORS !! i = Some (r, g, b) ->
  Z.land r 255 = r /\ Z.land g 255 = g /\ Z.land b 255 = b.
Proof.
  intros H. do 7 (destruct i as [| i]; [now inversion H |]). discriminate.
Qed.

Lemma light_run (s : driver) (i : nat) (r g b : Z) :
  wf (pixels s) -> (i < NUM_PIXELS)%nat ->
  exists b',
    blinkt_status.light (Z.of_nat i) r g b s = (Ok tt, with_pixels b' s)
    /\ wf b'
    /\ (buffer_in_range (pixels s) = true -> buffer_in_range b' = true)
    /\ forall j,
         pixel_at b' j =
         if decide (j = i)
         then (fun _ => Pixel (Z.land r 255) (Z.land g 255) (Z.land b 255) 1)
                <$> pixel_at (pixels s) j
         else pixel_at (pixels s) j.
Proof.
  intros Hwf Hi.
  destruct (set_pixel_effect (pixels s) i (PyInt r) (PyInt g) (PyInt b)
              (Some (PyFloat blinkt_status.BRIGHTNESS)) r g b (Some 1)
              Hwf Hi eq_refl eq_refl eq_refl status_brightness_quantized)
    as (b' & Hrun & Hwf' & Hat).
  exists b'. unfold blinkt_status.light. rewrite on_pixels_run, Hrun.
  split; [reflexivity |]. split; [exact Hwf' |]. split; [| exact Hat].
  intros Hr.
  pose proof (sound_set_pixel (pixels s) (Z.of_nat i) (PyInt r) (PyInt g)
                (PyInt b) (Some (PyFloat blinkt_status.BRIGHTNESS))
                (conj Hwf Hr)) as Hs.
  rewrite Hrun in Hs. apply Hs.
Qed.

Lemma light_bar_run (lit : Z) (n start : nat) (s : driver) :
  (start + n = 7)%nat ->
  wf (pixels s) ->
  exists b',
    for_from start n (blinkt_status.light_bar lit) s
    = (Ok tt, with_pixels b' s)
    /\ wf b'
    /\ (buffer_in_range (pixels s) = true -> buffer_in_range b' = true)
    /\ pixel_at b' 0 = pixel_at (pixels s) 0
    /\ forall i r g b,
         blinkt_status.CPU_COLORS !! i = Some (r, g, b) ->
         pixel_at b' (Datatypes.S i) =
         if (start <=? i)%nat && (Z.of_nat i <? lit)
         then (fun _ => Pixel r g b 1) <$> pixel_at (pixels s) (Datatypes.S i)
         else pixel_at (pixels s) (Datatypes.S i).
Proof.
  revert start s. induction n as [| n IH]; intros start s Hn Hwf.
  - exists (pixels s). cbn [for_from]. unfold ret. rewrite with_pixels_same.
    split; [reflexivity |]. split; [exact Hwf |]. split; [tauto |].
    split; [reflexivity |]. intros i r g b Hc.
    apply lookup_lt_Some in Hc. cbn in Hc.
    destruct (Nat.leb_spec start i); [lia | reflexivity].
  - cbn [for_from]. unfold blinkt_status.light_bar at 1.
    destruct (Z.of_nat start <? lit) eqn:Hlit.
    + destruct (lookup_lt_is_Some_2 blinkt_status.CPU_COLORS start)
        as [[[r0 g0] b0] Hc0]; [cbn; lia |].
      rewrite Hc0.
      replace (Z.of_nat start + 1) with (Z.of_nat (Datatypes.S start)) by lia.
      destruct (light_run s (Datatypes.S start) r0 g0 b0 Hwf)
        as (b1 & Hrun1 & Hwf1 & Hr1 & Hat1); [unfold NUM_PIXELS; lia |].
      rewrite (bind_ok _ _ _ _ _ Hrun1).
      destruct (IH (Datatypes.S start) (with_pixels b1 s)) as
        (b2 & Hrun2 & Hwf2 & Hr2 & Hat0 & Hat2); [lia | exact Hwf1 |].
      exists b2. split; [exact Hrun2 |]. split; [exact Hwf2 |].
      cbn [pixels with_pixels] in Hr2, Hat0, Hat2.
      split; [tauto |]. split.
      * rewrite Hat0, Hat1. now case_decide.
      * intros i r g b Hc. rewrite (Hat2 i r g b Hc), Hat1.
        destruct (cpu_colors_masked _ _ _ _ Hc0) as (Er & Eg & Eb).
        rewrite Er, Eg, Eb.
        case_decide as Hi.
        -- injection Hi as ->. rewrite Hc0 in Hc. injection Hc as -> -> ->.
           rewrite Hlit.
           destruct (Nat.leb_spec (Datatypes.S start) start); [lia |].
           destruct (Nat.leb_spec start start); [| lia]. reflexivity.
        -- destruct (Nat.leb_spec (Datatypes.S start) i),
                    (Nat.leb_spec start i); try lia; reflexivity.
    + unfold ret at 1. unfold bind at 1.
      destruct (IH (Datatypes.S start) s) as
        (b2 & Hrun2 & Hwf2 & Hr2 & Hat0 & Hat2); [lia | exact Hwf |].
      exists b2. split; [exact Hrun2 |]. split; [exact Hwf2 |].
      split; [exact Hr2 |]. split; [exact Hat0 |].
      intros i r g b Hc. rewrite (Hat2 i r g b Hc).
      destruct (Nat.leb_spec (Datatypes.S start) i),
               (Nat.leb_spec start i); try lia; try reflexivity.
      assert (i = start) as -> by lia. now rewrite Hlit.
Qed.

(** [update_leds] up to its call of [show]. *)
Lemma update_leds_run (s : driver) (check_fn : bool) (cpu : float) (lit : Z) :
  wf (pixels s) ->
  py_round (fmul (fdiv cpu blinkt_status.f100) blinkt_status.f7) = Ok lit ->
  exists b',
    blinkt_status.update_leds respond chip_labels check_fn cpu s
    = show respond chip_labels (with_pixels b' s)
    /\ wf b'
    /\ (buffer_in_range (pixels s) = true -> buffer_in_range b' = true)
    /\ pixel_at b' 0
       = Some (if check_fn then Pixel 255 255 255 1 else Pixel 255 0 0 1)
    /\ forall i, (i < 7)%nat ->
         exists p r g b,
           pixel_at (pixels s) (Datatypes.S i) = Some p
           /\ blinkt_status.CPU_COLORS !! i = Some (r, g, b)
           /\ pixel_at b' (Datatypes.S i)
              = Some (if Z.of_nat i <? lit then Pixel r g b 1
                      else Pixel 0 0 0 (brightness p)).
Proof.
  intros Hwf Hlit.
  destruct (update_all (fun p => Pixel 0 0 0 (brightness p)) (pixels s)
              ltac:(reflexivity) Hwf) as (b0 & Hclear & Hwf0 & _ & Hat0).
  fold clear in Hclear.
  assert (Hr0 : buffer_in_range (pixels s) = true ->
                buffer_in_range b0 = true).
  { intros Hr. pose proof (sound_clear (pixels s) (conj Hwf Hr)) as Hs.
    rewrite Hclear in Hs. apply Hs. }
  assert (Hfirst : on_pixels clear s = (Ok tt, with_pixels b0 s)).
  { now rewrite on_pixels_run, Hclear. }
  set (c := if check_fn then 255 else 0).
  destruct (light_run (with_pixels b0 s) 0 255 c c Hwf0)
    as (b1 & Hrun1 & Hwf1 & Hr1 & Hat1); [unfold NUM_PIXELS; lia |].
  cbn [pixels with_pixels] in Hr1, Hat1.
  assert (Hsecond :
            (if check_fn then blinkt_status.light 0 255 255 255
             else blinkt_status.light 0 255 0 0) (with_pixels b0 s)
            = (Ok tt, with_pixels b1 s)).
  { unfold c in Hrun1. destruct check_fn; exact Hrun1. }
  destruct (light_bar_run lit 7 0 (with_pixels b1 s))
    as (b2 & Hrun2 & Hwf2 & Hr2 & Hat20 & Hat2); [reflexivity | exact Hwf1 |].
  cbn [pixels with_pixels] in Hr2, Hat20, Hat2.
  exists b2. split; [| split; [exact Hwf2 | split; [tauto | split]]].
  - unfold blinkt_status.update_leds.
    rewrite (bind_ok _ _ _ _ _ Hfirst), (bind_ok _ _ _ _ _ Hsecond).
    unfold lift at 1. unfold bind at 1. rewrite Hlit.
    unfold for_range. rewrite (bind_ok _ _ _ _ _ Hrun2). reflexivity.
  - rewrite Hat20, Hat1, Hat0 by (unfold NUM_PIXELS; lia).
    destruct (wf_pixel_at _ 0 Hwf) as (l & p & _ & _ & Hp);
      [unfold NUM_PIXELS; lia |].
    rewrite Hp. unfold c. now destruct check_fn.
  - intros i Hi.
    destruct (wf_pixel_at _ (Datatypes.S i) Hwf) as (l & p & _ & _ & Hp);
      [unfold NUM_PIXELS; lia |].
    destruct (lookup_lt_is_Some_2 blinkt_status.CPU_COLORS i)
      as [[[r g] b] Hc]; [cbn; lia |].
    exists p, r, g, b. split; [exact Hp |]. split; [exact Hc |].
    rewrite (Hat2 i r g b Hc), Hat1, Hat0, Hp by (unfold NUM_PIXELS; lia).
    case_decide; [discriminate |]. cbn.
    now destruct (Z.of_nat i <? lit).
Qed.

End StatusFacts.

(** X13.  [update_leds] lays the eight LEDs out the same way whatever the
    device does in [show()]: when [round(cpu / 100.0 * 7)] is the int
    [lit], the buffer it leaves has LED 0 white (connected) or red at
    brightness 1, which is what [0.05] quantises to, each bar LED [i + 1]
    with [i < lit] in its colour of [CPU_COLORS] at brightness 1, and every
    other bar LED dark with the brightness it had before. *)
Theorem update_leds_layout (respond : list call -> call -> result Z)
        (chip_labels : list (Z * string)) (s : driver)
        (check_fn : bool) (cpu : float) (lit : Z) :
  wf (pixels s) ->
  py_round (fmul (fdiv cpu blinkt_status.f100) blinkt_status.f7) = Ok lit ->
  exists s',
    snd (blinkt_status.update_leds respond chip_labels check_fn cpu s) = s'
    /\ wf (pixels s')
    /\ pixel_at (pixels s') 0
       = Some (if check_fn then Pixel 255 255 255 1 else Pixel 255 0 0 1)
    /\ forall i, (i < 7)%nat ->
         exists p r g b,
           pixel_at (pixels s) (Datatypes.S i) = Some p
           /\ blinkt_status.CPU_COLORS !! i = Some (r, g, b)
           /\ pixel_at (pixels s') (Datatypes.S i)
              = Some (if Z.of_nat i <? lit then Pixel r g b 1
                      else Pixel 0 0 0 (brightness p)).
Proof.
  intros Hwf Hlit.
  destruct (update_leds_run respond chip_labels s check_fn cpu lit Hwf Hlit)
    as (b' & Hrun & Hwf' & _ & Hat0 & Hat).
  eexists. split; [reflexivity |]. rewrite Hrun.
  destruct (keeps_show respond chip_labels (with_pixels b' s)) as [-> _].
  cbn [pixels with_pixels]. auto.
Qed.

Lemma update_leds_layout_witness :
  exists s',
    snd (blinkt_status.update_leds world_held labels_pi5 true
           (S754_finite false 5038402083120742 (-47)) initial_driver) = s'
    /\ wf (pixels s')
    /\ pixel_at (pixels s') 0
       = Some (if true then Pixel 255 255 255 1 else Pixel 255 0 0 1)
    /\ forall i, (i < 7)%nat ->
         exists p r g b,
           pixel_at (pixels initial_driver) (Datatypes.S i) = Some p
           /\ blinkt_status.CPU_COLORS !! i = Some (r, g, b)
           /\ pixel_at (pixels s') (Datatypes.S i)
              = Some (if Z.of_nat i <? 3 then Pixel r g b 1
                      else Pixel 0 0 0 (brightness p)).
Proof.
  apply (update_leds_layout world_held labels_pi5 initial_driver true
           (S754_finite false 5038402083120742 (-47)) 3);
    vm_compute; reflexivity.
Defined.

(** X14.  On a driver that is set up, over a device whose pin writes do
    not raise, [update_leds] returns whenever [round(cpu / 100.0 * 7)]
    does, and what it adds to the calls made is one transmission, from
    which the receiver decodes the eight pixels of the buffer it leaves. *)
Theorem update_leds_on_wire (respond : list call -> call -> result Z)
        (chip_labels : list (Z * string)) (s : driver)
        (check_fn : bool) (cpu : float) (lit : Z) :
  writes_ok respond ->
  wf (pixels s) ->
  buffer_in_range (pixels s) = true ->
  _gpio_setup s = true ->
  py_round (fmul (fdiv cpu blinkt_status.f100) blinkt_status.f7) = Ok lit ->
  exists s' ps,
    blinkt_status.update_leds respond chip_labels check_fn cpu s = (Ok tt, s')
    /\ trace s' = trace s ++ transmission (_handle s) ps
    /\ decode_transmission (wire_bytes (transmission (_handle s) ps)) = Some ps
    /\ length ps = NUM_PIXELS
    /\ forall i, (i < NUM_PIXELS)%nat -> ps !! i = pixel_at (pixels s') i.
Proof.
  intros Hw Hwf Hr Hready Hlit.
  destruct (update_leds_run respond chip_labels s check_fn cpu lit Hwf Hlit)
    as (b' & Hrun & Hwf' & Hr' & _).
  exists (logs (transmission (_handle s) (pixel_list b')) (with_pixels b' s)),
         (pixel_list b').
  split; [| split; [reflexivity | split; [| split]]].
  - rewrite Hrun, show_ready by exact Hready. now rewrite transmit_run.
  - apply decode_wire_bytes, pixel_list_in_range; auto.
  - now apply pixel_list_length.
  - intros i _. now apply pixel_list_lookup.
Qed.

Lemma update_leds_on_wire_witness :
  exists s' ps,
    blinkt_status.update_leds world_ok labels_pi5 false
      (S754_finite false 6537256334104986 (-46))
      (with_gpio_setup true (with_handle (Some 0) initial_driver))
    = (Ok tt, s')
    /\ trace s'
       = trace (with_gpio_setup true (with_handle (Some 0) initial_driver))
         ++ transmission
              (_handle (with_gpio_setup true
                          (with_handle (Some 0) initial_driver))) ps
    /\ decode_transmission
         (wire_bytes
            (transmission
               (_handle (with_gpio_setup true
                           (with_handle (Some 0) initial_driver))) ps))
       = Some ps
    /\ length ps = NUM_PIXELS
    /\ forall i, (i < NUM_PIXELS)%nat -> ps !! i = pixel_at (pixels s') i.
Proof.
  apply (update_leds_on_wire world_ok labels_pi5
           (with_gpio_setup true (with_handle (Some 0) initial_driver))
           false (S754_finite false 6537256334104986 (-46)) 7
           world_ok_writes);
    vm_compute; reflexivity.
Defined.

(** ** Finding the RP1 chip *)

Section ChipFacts.

Lemma prefix_spec (a b : string) :
  String.prefix a b = true <-> exists post, b = String.append a post.
Proof.
  revert b. induction a as [| c a IH]; intros b.
  - split; [intros _; now exists b | intros _; now destruct b].
  - destruct b as [| d b]; cbn [String.prefix String.append].
    + split; [discriminate | intros [post H]; discriminate].
    + destruct (Ascii.ascii_dec c d) as [<- | Hne].
      * rewrite IH. split; intros [post H]; exists post; congruence.
      * split; [discriminate | intros [post H]; congruence].
Qed.

Lemma contains_unfold (needle text : string) :
  contains needle text
  = String.prefix needle text
    || match text with
       | EmptyString => false
       | String _ rest => contains needle rest
       end.
Proof. now destruct text. Qed.

Lemma contains_spec (needle text : string) :
  contains needle text = true <-> has_substring needle text.
Proof.
  unfold has_substring. split.
  - induction text as [| c rest IH]; rewrite contains_unfold; intros H;
      apply orb_true_iff in H as [H | H].
    + apply prefix_spec in H as [post ->]. now exists EmptyString, post.
    + discriminate.
    + apply prefix_spec in H as [post ->]. now exists EmptyString, post.
    + destruct (IH H) as (pre & post & ->). now exists (String c pre), post.
  - intros (pre & post & ->). induction pre as [| c pre IH];
      rewrite contains_unfold; apply orb_true_iff.
    + left. apply prefix_spec. now exists post.
    + right. exact IH.
Qed.

Lemma contains_false (needle text : string) :
  contains needle text = false <-> ~ has_substring needle text.
Proof.
  rewrite <- contains_spec. now destruct (contains needle text).
Qed.

End ChipFacts.

(** X15.  [_find_rp1_chip] returns [n] exactly when [n] is the number of
    the first label file, in the order scanned, whose text has
    ['pinctrl-rp1'] somewhere in it, or when no file has and [n] is 0. *)
Theorem find_rp1_first_match (labels : list (Z * string)) (n : Z) :
  find_rp1 labels = n
  <-> (exists pre text post,
         labels = pre ++ (n, text) :: post
         /\ has_substring "pinctrl-rp1" text
         /\ Forall (fun l => ~ has_substring "pinctrl-rp1" (snd l)) pre)
      \/ (n = 0
          /\ Forall (fun l => ~ has_substring "pinctrl-rp1" (snd l)) labels).
Proof.
  revert n. induction labels as [| [m t] rest IH]; intros n; cbn [find_rp1].
  - split.
    + intros <-. right. split; [reflexivity | constructor].
    + intros [(pre & text & post & H & _) | [-> _]]; [| reflexivity].
      now destruct pre.
  - destruct (contains "pinctrl-rp1" t) eqn:Hc.
    + apply contains_spec in Hc. split.
      * intros <-. left. exists [], t, rest. repeat split; [exact Hc | constructor].
      * intros [(pre & text & post & H & _ & Hpre) | [_ Hall]].
        -- destruct pre as [| p pre]; [now inversion H |].
           inversion H; subst p. apply Forall_cons in Hpre as [Hno _].
           now destruct Hno.
        -- apply Forall_cons in Hall as [Hno _]. now destruct Hno.
    + apply contains_false in Hc. rewrite IH. split.
      * intros [(pre & text & post & -> & Hin & Hpre) | [-> Hall]].
        -- left. exists ((m, t) :: pre), text, post.
           repeat split; [exact Hin | now constructor].
        -- right. split; [reflexivity | now constructor].
      * intros [(pre & text & post & H & Hin & Hpre) | [-> Hall]].
        -- destruct pre as [| p pre].
           ++ inversion H; subst. now destruct Hc.
           ++ inversion H; subst p rest. left. exists pre, text, post.
              apply Forall_cons in Hpre as [_ Hpre]. now repeat split.
        -- right. apply Forall_cons in Hall as [_ Hall]. now split.
Qed.

(** ** The quantised brightness never wraps on the unit interval *)

Section QuantizeRange.

Lemma shr_1_halves (r : shr_record) :
  0 <= shr_m r -> 0 <= shr_m (shr_1 r) /\ 2 * shr_m (shr_1 r) <= shr_m r.
Proof.
  destruct r as [m b c]. cbn [shr_m]. intros Hm.
  destruct m as [| [p | p |] | p]; cbn; lia.
Qed.

Lemma iter_shr_1_floor (p : positive) (r : shr_record) :
  0 <= shr_m r ->
  0 <= shr_m (SpecFloat.iter_pos shr_1 p r)
  /\ shr_m (SpecFloat.iter_pos shr_1 p r) * 2 ^ Zpos p <= shr_m r.
Proof.
  revert r. induction p as [p IH | p IH |]; intros r Hr;
    cbn [SpecFloat.iter_pos].
  - destruct (shr_1_halves r Hr) as [H0 H1].
    destruct (IH (shr_1 r) H0) as [H2 H3].
    destruct (IH (SpecFloat.iter_pos shr_1 p (shr_1 r)) H2) as [H4 H5].
    split; [exact H4 |].
    replace (Z.pos p~1) with (Z.pos p + Z.pos p + 1) by lia.
    rewrite !Z.pow_add_r by lia. change (2 ^ 1) with 2.
    assert (0 < 2 ^ Z.pos p) by (apply Z.pow_pos_nonneg; lia). nia.
  - destruct (IH r Hr) as [H2 H3].
    destruct (IH (SpecFloat.iter_pos shr_1 p r) H2) as [H4 H5].
    split; [exact H4 |].
    replace (Z.pos p~0) with (Z.pos p + Z.pos p) by lia.
    rewrite !Z.pow_add_r by lia.
    assert (0 < 2 ^ Z.pos p) by (apply Z.pow_pos_nonneg; lia). nia.
  - destruct (shr_1_halves r Hr) as [H0 H1]. change (2 ^ 1) with 2. lia.
Qed.

(** The shift of [shr_fexp] rounds the mantissa down. *)
Lemma shr_fexp_floor (m e : Z) (l : location) (r : shr_record) (e1 : Z) :
  0 <= m ->
  shr_fexp prec emax m e l = (r, e1) ->
  0 <= shr_m r /\ e <= e1 /\ shr_m r * 2 ^ (e1 - e) <= m
  /\ e1 = Z.max e (fexp prec emax (Zdigits2 m + e)).
Proof.
  intros Hm. unfold shr_fexp, shr.
  assert (Hrec : shr_m (shr_record_of_loc m l) = m)
    by (destruct l as [| []]; reflexivity).
  destruct (fexp prec emax (Zdigits2 m + e) - e) as [| p | p] eqn:Hd;
    intros [= <- <-].
  - rewrite Hrec, Z.sub_diag. cbn. lia.
  - pose proof (iter_shr_1_floor p (shr_record_of_loc m l)) as H.
    rewrite Hrec in H. destruct (H Hm) as [H0 H1].
    replace (e + Z.pos p - e) with (Z.pos p) by lia. lia.
  - rewrite Hrec, Z.sub_diag. cbn. lia.
Qed.

(** A product of at most 31, rounded, is zero or a positive float that is
    less than 32. *)
Lemma round_below_32 (M E : Z) :
  0 <= M -> E < 0 -> M <= 31 * 2 ^ (- E) ->
  match binary_round_aux prec emax false M E loc_Exact with
  | S754_zero _ => True
  | S754_finite s m e => s = false /\ e <= 0 /\ Zpos m < 2 ^ (5 - e)
  | _ => False
  end.
Proof.
  intros HM HE Hle. unfold binary_round_aux.
  destruct (shr_fexp prec emax M E loc_Exact) as [r1 e1] eqn:H1.
  apply shr_fexp_floor in H1 as (Hr1 & Hle1 & Hfl1 & He1); [| exact HM].
  pose proof (round_nearest_even_bounds (shr_m r1) (loc_of_shr_record r1)
                Hr1) as Hrn.
  set (m1 := round_nearest_even (shr_m r1) (loc_of_shr_record r1)) in *.
  destruct (shr_fexp prec emax m1 e1 loc_Exact) as [r2 e2] eqn:H2.
  apply shr_fexp_floor in H2 as (Hr2 & Hle2 & Hfl2 & He2); [| lia].
  assert (Hpow : forall x y, 0 <= x -> 0 <= y -> 2 ^ (x + y) = 2 ^ x * 2 ^ y)
    by (intros; now apply Z.pow_add_r).
  assert (Hpos : forall x, 0 <= x -> 0 < 2 ^ x)
    by (intros; apply Z.pow_pos_nonneg; lia).
  assert (HM32 : M < 2 ^ (5 - E)).
  { replace (5 - E) with (5 + - E) by lia. rewrite Hpow by lia.
    change (2 ^ 5) with 32. pose proof (Hpos (- E) ltac:(lia)). lia. }
  pose proof (Zdigits2_upper M (5 - E) ltac:(lia) (conj HM HM32)) as Hd.
  assert (He1neg : e1 <= -48 \/ e1 = E).
  { unfold fexp, emin, prec, emax in He1. lia. }
  assert (He10 : e1 < 0) by lia.
  assert (Hm1 : m1 < 2 ^ (5 - e1)).
  { apply (Z.mul_lt_mono_pos_r (2 ^ (e1 - E))); [apply Hpos; lia |].
    rewrite <- Hpow by lia. replace (5 - e1 + (e1 - E)) with (5 + - E) by lia.
    rewrite Hpow by lia. change (2 ^ 5) with 32.
    assert (2 ^ (e1 - E) < 2 ^ (- E)) by (apply Z.pow_lt_mono_r; lia).
    pose proof (Hpos (e1 - E) ltac:(lia)). nia. }
  pose proof (Zdigits2_upper m1 (5 - e1) ltac:(lia) (conj (proj1 Hrn) Hm1))
    as Hd1.
  assert (He2neg : e2 <= -48 \/ e2 = e1).
  { unfold fexp, emin, prec, emax in He2. lia. }
  assert (Hm2 : shr_m r2 < 2 ^ (5 - e2)).
  { apply (Z.mul_lt_mono_pos_r (2 ^ (e2 - e1))); [apply Hpos; lia |].
    rewrite <- Hpow by lia. replace (5 - e2 + (e2 - e1)) with (5 - e1) by lia.
    lia. }
  destruct (shr_m r2) as [| p | p] eqn:Hs2; [exact I | | lia].
  unfold prec, emax. destruct (Z.leb_spec e2 (1024 - 53)); [| lia].
  repeat split; [lia | exact Hm2].
Qed.

Lemma unit_mantissa (m : positive) (e : Z) :
  is_float (S754_finite false m e) = true ->
  fle (S754_finite false m e) f1 = true ->
  e <= -52 /\ Zpos m <= 2 ^ (- e).
Proof.
  intros Hv H1. pose proof (is_float_mantissa false m e Hv) as Hm.
  unfold fle, SFleb, SFcompare, f1 in H1.
  destruct (Z.compare_spec e (-52)) as [-> | Hlt | Hgt].
  - split; [lia |]. change (- -52) with 52.
    change (2 ^ 52) with (Zpos 4503599627370496).
    apply Pos2Z.pos_le_pos. unfold Pos.le, Pos.compare.
    destruct (PosDef.Pos.compare_cont Eq m 4503599627370496);
      [discriminate | discriminate | discriminate].
  - split; [lia |]. transitivity (2 ^ 53); [lia |].
    apply Z.pow_le_mono_r; lia.
  - discriminate.
Qed.

Lemma fmul31_below_32 (f : float) :
  is_float f = true -> fle f0 f = true -> fle f f1 = true ->
  exists z, py_int (PyFloat (fmul f31 f)) = Ok z /\ 0 <= z <= 31.
Proof.
  intros Hv H0 H1. destruct f as [s | s | | s m e].
  - exists 0. split; [reflexivity | lia].
  - destruct s; discriminate.
  - discriminate.
  - destruct s; [discriminate |].
    destruct (unit_mantissa m e Hv H1) as [He Hm].
    pose proof (round_below_32 (Zpos (8725724278030336 * m)) (-48 + e)
                  ltac:(lia) ltac:(lia)) as Hr.
    unfold fmul, f31, SFmul. cbn [xorb].
    destruct (binary_round_aux prec emax false
                (Z.pos (8725724278030336 * m)) (-48 + e) loc_Exact)
      as [s' | s' | | s' m' e'].
    + exists 0. split; [reflexivity | lia].
    + exfalso. apply Hr.
      rewrite Pos2Z.inj_mul. replace (- (-48 + e)) with (48 + - e) by lia.
      rewrite Z.pow_add_r by lia.
      change (Z.pos 8725724278030336) with (31 * 2 ^ 48). nia.
    + exfalso. apply Hr.
      rewrite Pos2Z.inj_mul. replace (- (-48 + e)) with (48 + - e) by lia.
      rewrite Z.pow_add_r by lia.
      change (Z.pos 8725724278030336) with (31 * 2 ^ 48). nia.
    + destruct Hr as (-> & He' & Hm').
      { rewrite Pos2Z.inj_mul. replace (- (-48 + e)) with (48 + - e) by lia.
        rewrite Z.pow_add_r by lia.
        change (Z.pos 8725724278030336) with (31 * 2 ^ 48). nia. }
      eexists. split; [reflexivity |]. cbn [cond_Zopp].
      rewrite Z.shiftl_div_pow2 by lia.
      assert (0 < 2 ^ (- e')) by (apply Z.pow_pos_nonneg; lia).
      split; [apply Z.div_pos; lia |].
      assert (Z.pos m' / 2 ^ (- e') < 32); [| lia].
      apply Z.div_lt_upper_bound; [lia |].
      replace (5 - e') with (- e' + 5) in Hm' by lia.
      rewrite Z.pow_add_r in Hm' by lia. change (2 ^ 5) with 32 in Hm'. lia.
Qed.

End QuantizeRange.

(** X16.  For a brightness in [0.0, 1.0] the product [31.0 * brightness],
    truncated by [int], already lies in 0..31: the mask [& 0b11111] changes
    nothing there, so [set_brightness] and [set_pixel] store the truncated
    product itself and never wrap around. *)
Theorem quantize_never_wraps (b : pynum) :
  in_unit_interval b = true ->
  exists f z,
    py_to_float b = Ok f
    /\ py_int (PyFloat (fmul f31 f)) = Ok z
    /\ 0 <= z <= 31
    /\ Z.land z 31 = z
    /\ quantize b = Ok z.
Proof.
  intros Hb.
  assert (Hmask : forall z, 0 <= z <= 31 -> Z.land z 31 = z).
  { intros z Hz. change 31 with (Z.ones 5). rewrite Z.land_ones by lia.
    apply Z.mod_small. change (2 ^ 5) with 32. lia. }
  destruct b as [z | f]; cbn [in_unit_interval] in Hb.
  - apply andb_prop in Hb as [Hlo Hhi].
    apply Z.leb_le in Hlo. apply Z.leb_le in Hhi.
    assert (Hz : z = 0 \/ z = 1) by lia.
    destruct Hz as [-> | ->].
    + exists (S754_zero false), 0. vm_compute. repeat split; discriminate.
    + exists f1, 31. vm_compute. repeat split; discriminate.
  - apply andb_prop in Hb as [Hb H1]. apply andb_prop in Hb as [Hv H0].
    destruct (fmul31_below_32 f Hv H0 H1) as (z & Hz & Hr).
    exists f, z. unfold quantize. cbn [py_to_float]. rewrite Hz, Hmask by exact Hr.
    repeat split; lia.
Qed.

Lemma quantize_never_wraps_witness :
  exists f z,
    py_to_float (PyFloat f1) = Ok f
    /\ py_int (PyFloat (fmul f31 f)) = Ok z
    /\ 0 <= z <= 31
    /\ Z.land z 31 = z
    /\ quantize (PyFloat f1) = Ok z.
Proof.
  exact (quantize_never_wraps (PyFloat f1) eq_refl).
Defined.
